(** * Caltrain commuter app: the transit schedule resolution engine

    A shallow embedding of [lib/gtfs-static.ts] ([getActiveServiceId],
    [findGTFSStopId], [fetchGTFSData], [getScheduledTrains]) and of
    [lib/gtfs-realtime.ts] ([getTripDelay], [calculateTripDelay]), with the
    properties the specification states about them.

    Layout: the JavaScript runtime the code relies on (numbers, strings,
    [Date], the America/Los_Angeles rules), the data model, the embedded
    functions, helper lemmas, and the properties. *)

From Stdlib Require Import ZArith List String Ascii Bool Lia Sorted Permutation.
From stdpp Require Import base option list strings gmap.

Local Open Scope Z_scope.

(** ** The JavaScript runtime *)

Module JS.

(** A JavaScript number, as far as this program computes with them: an
    integer (the code only handles whole seconds, minutes and epoch
    milliseconds, all far below 2^53, where doubles are exact) or [NaN]. *)
Definition num : Type := option Z.
Definition NaN : num := None.

Definition add (a b : num) : num :=
  match a, b with
  | Some x, Some y => Some (x + y)
  | _, _ => NaN
  end.

(** [a < b]: false as soon as one side is [NaN]. *)
Definition lt (a b : num) : bool :=
  match a, b with
  | Some x, Some y => x <? y
  | _, _ => false
  end.

Definition gt (a b : num) : bool := lt b a.

(** [a === b] on numbers: [NaN] equals nothing, itself included. *)
Definition same (a b : num) : bool :=
  match a, b with
  | Some x, Some y => x =? y
  | _, _ => false
  end.

(** [a !== b]. *)
Definition differ (a b : num) : bool := negb (same a b).

(** [Math.round (n / d)] for integers [n] and [d > 0]: the nearest integer,
    a tie going up (towards positive infinity). *)
Definition round_div (n d : Z) : Z := (2 * n + d) / (2 * d).

(** [s.split(sep)] for a one-character separator. *)
Fixpoint split (sep : ascii) (s : string) : list string :=
  match s with
  | EmptyString => [EmptyString]
  | String c rest =>
      if Ascii.eqb c sep then EmptyString :: split sep rest
      else match split sep rest with
           | [] => [String c EmptyString]
           | p :: ps => String c p :: ps
           end
  end.

(** [s.padStart(2, '0')]. *)
Definition padStart2 (s : string) : string :=
  match s with
  | EmptyString => "00"
  | String c EmptyString => String "0" (String c EmptyString)
  | _ => s
  end.

Definition is_white (c : ascii) : bool :=
  let n := Z.of_N (N_of_ascii c) in
  ((9 <=? n) && (n <=? 13)) || (n =? 32).

Definition digit_val (radix : Z) (c : ascii) : option Z :=
  let n := Z.of_N (N_of_ascii c) in
  let v :=
    if (48 <=? n) && (n <=? 57) then Some (n - 48)
    else if (97 <=? n) && (n <=? 122) then Some (n - 87)
    else if (65 <=? n) && (n <=? 90) then Some (n - 55)
    else None in
  match v with
  | Some d => if d <? radix then Some d else None
  | None => None
  end.

(** The longest prefix of digits, read in [radix]; [None] when it is empty. *)
Fixpoint digits_prefix (radix : Z) (acc : option Z) (s : string) : option Z :=
  match s with
  | EmptyString => acc
  | String c rest =>
      match digit_val radix c with
      | Some d => digits_prefix radix (Some (radix * default 0 acc + d)) rest
      | None => acc
      end
  end.

Fixpoint skip_white (s : string) : string :=
  match s with
  | String c rest => if is_white c then skip_white rest else s
  | EmptyString => s
  end.

Definition strip_hex (s : string) : option string :=
  match s with
  | String "0" (String c rest) =>
      if Ascii.eqb c "x" || Ascii.eqb c "X" then Some rest else None
  | _ => None
  end.

Definition parse_unsigned (s : string) : num :=
  match strip_hex s with
  | Some rest => digits_prefix 16 None rest
  | None => digits_prefix 10 None s
  end.

(** [parseInt(s)] with no radix argument: leading white space is skipped,
    a sign is read, a [0x] prefix selects base 16, the longest run of digits
    is the value, and no digit at all gives [NaN]. *)
Definition parseInt (s : string) : num :=
  match skip_white s with
  | String "-" rest => Z.opp <$> parse_unsigned rest
  | String "+" rest => parse_unsigned rest
  | t => parse_unsigned t
  end.

Definition upper_char (c : ascii) : ascii :=
  let n := N_of_ascii c in
  if ((97 <=? n) && (n <=? 122))%N then ascii_of_N (n - 32) else c.

(** [s.toUpperCase()] on the ASCII letters. *)
Fixpoint toUpperCase (s : string) : string :=
  match s with
  | EmptyString => EmptyString
  | String c rest => String (upper_char c) (toUpperCase rest)
  end.

(** [arr.findIndex(p)]: the first position whose element satisfies [p],
    or [-1]. *)
Fixpoint findIndex {A : Type} (p : A -> bool) (l : list A) : Z :=
  match l with
  | [] => -1
  | x :: rest =>
      if p x then 0
      else let i := findIndex p rest in if i <? 0 then -1 else i + 1
  end.

(** A two-digit field of an ISO 8601 date-time string. *)
Definition two_digits (s : string) : option Z :=
  match s with
  | String a (String b EmptyString) =>
      match digit_val 10 a, digit_val 10 b with
      | Some x, Some y => Some (10 * x + y)
      | _, _ => None
      end
  | _ => None
  end.

(** The digits after the decimal point of a seconds field, read as
    milliseconds: at least one digit and digits only; the first three count,
    a shorter run is padded with zeros. *)
Fixpoint fractionDigits (s : string) : option (list Z) :=
  match s with
  | EmptyString => Some []
  | String c rest =>
      match digit_val 10 c, fractionDigits rest with
      | Some d, Some ds => Some (d :: ds)
      | _, _ => None
      end
  end.

Definition fractionMs (s : string) : option Z :=
  match fractionDigits s with
  | Some (a :: rest) =>
      Some (100 * a + 10 * nth 0 rest 0 + nth 1 rest 0)
  | _ => None
  end.

(** The seconds field of an ISO 8601 date-time string: two digits, and
    possibly a decimal point with a fraction; the seconds and the
    milliseconds. *)
Definition secondsField (s : string) : option (Z * Z) :=
  match s with
  | String a (String b rest) =>
      match digit_val 10 a, digit_val 10 b with
      | Some x, Some y =>
          match rest with
          | EmptyString => Some (10 * x + y, 0)
          | String "." frac => (fun ms => (10 * x + y, ms)) <$> fractionMs frac
          | _ => None
          end
      | _, _ => None
      end
  | _ => None
  end.

Definition digit_char (d : Z) : ascii := ascii_of_N (Z.to_N (48 + d mod 10)).

Definition decimalChars : list ascii :=
  ["0"; "1"; "2"; "3"; "4"; "5"; "6"; "7"; "8"; "9"]%char.

(** Strings are taken over the ASCII characters; of the white space
    [trim] and [parseInt] remove, the ASCII part is modelled. *)

Fixpoint trimEnd (s : string) : string :=
  match s with
  | EmptyString => EmptyString
  | String c rest =>
      match trimEnd rest with
      | EmptyString => if is_white c then EmptyString else String c EmptyString
      | t => String c t
      end
  end.

(** [s.trim()]. *)
Definition trim (s : string) : string := trimEnd (skip_white s).

Definition lower_char (c : ascii) : ascii :=
  let n := N_of_ascii c in
  if ((65 <=? n) && (n <=? 90))%N then ascii_of_N (n + 32) else c.

(** [s.toLowerCase()] on the ASCII letters. *)
Fixpoint toLowerCase (s : string) : string :=
  match s with
  | EmptyString => EmptyString
  | String c rest => String (lower_char c) (toLowerCase rest)
  end.

(** [s.startsWith(p)]. *)
Fixpoint startsWith (s p : string) : bool :=
  match p, s with
  | EmptyString, _ => true
  | String a p', String b s' => Ascii.eqb a b && startsWith s' p'
  | String _ _, EmptyString => false
  end.

(** [s.includes(sub)]. *)
Fixpoint includes (s sub : string) : bool :=
  startsWith s sub
  || match s with
     | EmptyString => false
     | String _ rest => includes rest sub
     end.

(** A number printed with [n] decimal digits, zero-padded. *)
Fixpoint fixed_digits (n : nat) (v : Z) : string :=
  match n with
  | O => EmptyString
  | S k => (fixed_digits k (v / 10) +:+ String (digit_char v) EmptyString)%string
  end.

End JS.

(** ** Civil dates and the America/Los_Angeles rules

    The program reads the local date of an instant through
    [toLocaleDateString('en-US', {timeZone: 'America/Los_Angeles'})] and builds
    instants back from ISO 8601 strings. An instant is its number of
    milliseconds since the epoch; a civil date is its day number (days since
    1970-01-01), converted to and from year, month and day with the
    proleptic Gregorian calendar that [Date] uses. Query instants are valid
    dates of the years in which the year prints as four digits and the
    daylight-time rule below is in force (2007 onwards). *)

Module Civil.

Definition msPerDay : Z := 86400000.
Definition msPerHour : Z := 3600000.

Definition civil_from_days (z0 : Z) : Z * Z * Z :=
  let z := z0 + 719468 in
  let era := z / 146097 in
  let doe := z - era * 146097 in
  let yoe := (doe - doe / 1460 + doe / 36524 - doe / 146096) / 365 in
  let y := yoe + era * 400 in
  let doy := doe - (365 * yoe + yoe / 4 - yoe / 100) in
  let mp := (5 * doy + 2) / 153 in
  let d := doy - (153 * mp + 2) / 5 + 1 in
  let m := if mp <? 10 then mp + 3 else mp - 9 in
  (if m <=? 2 then y + 1 else y, m, d).

Definition days_from_civil (y m d : Z) : Z :=
  let y' := if m <=? 2 then y - 1 else y in
  let era := y' / 400 in
  let yoe := y' - era * 400 in
  let doy := (153 * (if 2 <? m then m - 3 else m + 9) + 2) / 5 + d - 1 in
  let doe := yoe * 365 + yoe / 4 - yoe / 100 + doy in
  era * 146097 + doe - 719468.

(** Day of the week of a day number, 0 = Sunday (1970-01-01 was a Thursday). *)
Definition weekday (day : Z) : Z := (day + 4) mod 7.

(** The first Sunday on or after a day. *)
Definition sunday_from (day : Z) : Z := day + (7 - weekday day) mod 7.

(** Daylight time in America/Los_Angeles, by the rule the source's comment
    cites (second Sunday in March to first Sunday in November): it starts at
    02:00 standard time (10:00 UTC) and ends at 02:00 daylight time
    (09:00 UTC). This is the rule in force from 2007 on; the time zone data
    [toLocaleString] reads has other rules for the years before, which are
    not modelled: statements about the offset are made for the years from
    2007. *)
Definition dstStart (y : Z) : Z :=
  sunday_from (days_from_civil y 3 8) * msPerDay + 10 * msPerHour.

Definition dstEnd (y : Z) : Z :=
  sunday_from (days_from_civil y 11 1) * msPerDay + 9 * msPerHour.

Definition isPDT (t : Z) : bool :=
  let '(y, _, _) := civil_from_days (t / msPerDay) in
  (dstStart y <=? t) && (t <? dstEnd y).

(** Offset of Pacific time from UTC at an instant, in hours. *)
Definition pacificOffset (t : Z) : Z := if isPDT t then -7 else -8.

(** The Pacific civil day an instant falls on. *)
Definition pacificDay (t : Z) : Z := (t + pacificOffset t * msPerHour) / msPerDay.

(** The year of a civil day, and whether it prints as four digits, as the
    year of an ISO 8601 date string must. *)
Definition civilYear (day : Z) : Z :=
  let '(y, _, _) := civil_from_days day in y.

Definition fourDigitYear (day : Z) : bool :=
  (1000 <=? civilYear day) && (civilYear day <=? 9999).

(** [new Date("Y-M-DTh:m:s+off:00")] for a well-formed string: the instant at
    that time of that civil day, [off] hours from UTC. *)
Definition instantAt (day h m s off : Z) : Z :=
  day * msPerDay + (h * 3600 + m * 60 + s) * 1000 - off * msPerHour.

End Civil.

Import JS Civil.

(** ** Data model ([lib/gtfs-static.ts], [lib/gtfs-realtime.ts]) *)

Record GTFSStopTime := {
  st_trip_id : string;
  arrival_time : string;
  departure_time : string;
  stop_id : string;
  stop_sequence : Z
}.

Record GTFSTrip := {
  trip_id : string;
  route_id : string;
  service_id : string;
  trip_short_name : string;
  trip_headsign : string;
  direction_id : string
}.

Record GTFSCalendar := {
  cal_service_id : string;
  monday : string;
  tuesday : string;
  wednesday : string;
  thursday : string;
  friday : string;
  saturday : string;
  sunday : string;
  start_date : string;
  end_date : string
}.

(** [exception_type]: 1 = service added, 2 = service removed. *)
Record GTFSCalendarDate := {
  cd_service_id : string;
  cd_date : string;
  exception_type : string
}.

Record GtfsCache := {
  stopTimes : list GTFSStopTime;
  trips : list GTFSTrip;
  calendar : list GTFSCalendar;
  calendarDates : list GTFSCalendarDate;
  lastFetch : option Z
}.

Definition CACHE_DURATION_HOURS : Z := 24.

(** [delay] in seconds, [time] a unix timestamp. *)
Record StopTimeEvent := {
  delay : Z;
  time : Z
}.

Record StopTimeUpdate := {
  stopId : string;
  stopSequence : Z;
  arrival : option StopTimeEvent;
  departure : option StopTimeEvent;
  scheduleRelationship : option string
}.

Record TripUpdate := {
  tripId : string;
  routeId : string;
  startDate : string;
  startTime : string;
  stopTimeUpdates : list StopTimeUpdate
}.

Inductive DelayStatus := OnTime | Delayed | Cancelled.

Record DelayInfo := {
  info_delay : Z;
  info_status : DelayStatus
}.

Inductive TrainType := Local | Limited | Express.

Inductive Direction := Northbound | Southbound.

(** [departureTime] and [arrivalTime] are ISO 8601 strings of an instant
    ([Date.prototype.toISOString], read back with [new Date]); they are
    kept as the instant they denote. *)
Record Train := {
  trainNumber : string;
  train_tripId : string;
  direction : Direction;
  departureTime : Z;
  arrivalTime : Z;
  duration : Z;
  type : TrainType
}.

(** Modelled from the spec: [lib/stations.ts] is not part of the sources;
    a station carries the identifier, the public code and the name that
    [getScheduledTrains] reads. *)
Record Station := {
  id : string;
  code : string;
  name : string
}.

(** Modelled from the spec: [TrainDelay] of [lib/caltrain-alerts-scraper.ts]
    (a scraped delay: the train's display number and its delay in minutes). *)
Record TrainDelay := {
  td_trainNumber : string;
  delayMinutes : Z
}.

(** ** Calendar resolution *)

Record PacificTimeInfo := {
  dayOfWeek : Z;
  dateStr : string;
  pacificDate : Z
}.

(** [getPacificTimeInfo]: the day of the week (0 = Sunday) and the
    [YYYYMMDD] string of the Pacific civil date of an instant. *)
Definition getPacificTimeInfo (date : Z) : PacificTimeInfo :=
  let day := pacificDay date in
  let '(y, m, d) := civil_from_days day in
  {| dayOfWeek := weekday day;
     dateStr := (fixed_digits 4 y +:+ fixed_digits 2 m +:+ fixed_digits 2 d)%string;
     pacificDate := day |}.

Definition dayNames : list (GTFSCalendar -> string) :=
  [sunday; monday; tuesday; wednesday; thursday; friday; saturday].

(** [cal[dayNames[dayOfWeek]]]; [None] stands for [undefined]. *)
Definition dayFlag (cal : GTFSCalendar) (dow : Z) : option string :=
  (fun f => f cal) <$> (dayNames !! Z.to_nat dow).

Definition isAdded (ds : string) (cd : GTFSCalendarDate) : bool :=
  String.eqb (cd_date cd) ds && String.eqb (exception_type cd) "1".

Definition isRemoved (ds sid : string) (cd : GTFSCalendarDate) : bool :=
  String.eqb (cd_date cd) ds && String.eqb (cd_service_id cd) sid
  && String.eqb (exception_type cd) "2".

(** The [for (const cal of calendar)] loop of [getActiveServiceId]. *)
Fixpoint scanCalendar (dow : Z) (ds : string)
    (calendarDates : list GTFSCalendarDate) (cals : list GTFSCalendar)
    : option string :=
  match cals with
  | [] => None
  | cal :: rest =>
      let startDate := parseInt (start_date cal) in
      let endDate := parseInt (end_date cal) in
      let currentDate := parseInt ds in
      if JS.lt currentDate startDate || JS.gt currentDate endDate
      then scanCalendar dow ds calendarDates rest
      else
        match find (isRemoved ds (cal_service_id cal)) calendarDates with
        | Some _ => scanCalendar dow ds calendarDates rest
        | None =>
            match dayFlag cal dow with
            | Some flag =>
                if String.eqb flag "1" then Some (cal_service_id cal)
                else scanCalendar dow ds calendarDates rest
            | None => scanCalendar dow ds calendarDates rest
            end
        end
  end.

Definition getActiveServiceId (date : Z) (calendar : list GTFSCalendar)
    (calendarDates : list GTFSCalendarDate) : option string :=
  let info := getPacificTimeInfo date in
  match find (isAdded (dateStr info)) calendarDates with
  | Some exceptionDate => Some (cd_service_id exceptionDate)
  | None => scanCalendar (dayOfWeek info) (dateStr info) calendarDates calendar
  end.

(** ** Station code to stop identifier *)

Definition codeMapping : gmap string string :=
  list_to_map
    [("SF", "7001"); ("22ND", "7002"); ("BAYSHORE", "7003"); ("SSF", "7004");
     ("SB", "7005"); ("MB", "7006"); ("MILLBRAE", "7006");
     ("BURLINGAME", "7008"); ("SM", "7009"); ("HAYWARD", "7010");
     ("HILLSDALE", "7011"); ("BELMONT", "7012"); ("SC", "7013");
     ("SAN CARLOS", "7013"); ("RW", "7014"); ("REDWOOD", "7014");
     ("MP", "7016"); ("MENLO", "7016"); ("PA", "7017"); ("PALO ALTO", "7017");
     ("STANFORD", "253774"); ("CALAVEUE", "7019"); ("CALIFORNIA", "7019");
     ("SAN ANTONIO", "7020"); ("MV", "7021"); ("MOUNTAIN VIEW", "7021");
     ("SUNNYVALE", "7022"); ("LAWRENCE", "7023"); ("SANTACLARA", "7024");
     ("SANTA CLARA", "7024"); ("COLLEGEPARK", "7025");
     ("COLLEGE PARK", "7025"); ("SJ", "7026"); ("DIRIDON", "7026");
     ("TAMIEN", "7027"); ("CAPITOL", "7028"); ("BH", "7029");
     ("BLOSSOM HILL", "7029"); ("MH", "7030"); ("MORGAN HILL", "7030");
     ("SAN MARTIN", "7031"); ("GILROY", "7032")].

Definition directionSuffix (directionId : string) : string :=
  if String.eqb directionId "0" then "1" else "2".

Definition findGTFSStopId (stationCode directionId : string) : string :=
  match codeMapping !! toUpperCase stationCode with
  | None => (stationCode +:+ directionSuffix directionId)%string
  | Some baseCode =>
      if String.eqb baseCode "253774"
      then (if String.eqb directionId "0" then "2537740" else "2537744")
      else (baseCode +:+ directionSuffix directionId)%string
  end.

(** ** Real-time delays ([lib/gtfs-realtime.ts]) *)

Definition isSkippedOrCanceled (stop : StopTimeUpdate) : bool :=
  match scheduleRelationship stop with
  | Some r => String.eqb r "SKIPPED" || String.eqb r "CANCELED"
  | None => false
  end.

(** [a || b] on numbers where [undefined] and 0 are falsy. *)
Definition orElse (a : option Z) (b : Z) : Z :=
  match a with
  | Some x => if x =? 0 then b else x
  | None => b
  end.

(** [stop.departure?.delay || stop.arrival?.delay || 0]. *)
Definition stopDelay (stop : StopTimeUpdate) : Z :=
  orElse (delay <$> departure stop) (orElse (delay <$> arrival stop) 0).

(** The loop of [calculateTripDelay]: the running [maxDelaySeconds], and
    whether the loop was left through [isCancelled = true; break]. *)
Fixpoint delayLoop (stops : list StopTimeUpdate) (maxDelaySeconds : Z) : Z * bool :=
  match stops with
  | [] => (maxDelaySeconds, false)
  | stop :: rest =>
      if isSkippedOrCanceled stop then (maxDelaySeconds, true)
      else
        delayLoop rest
          (if Z.abs maxDelaySeconds <? Z.abs (stopDelay stop)
           then stopDelay stop else maxDelaySeconds)
  end.

Definition calculateTripDelay (update : TripUpdate) : option DelayInfo :=
  match stopTimeUpdates update with
  | [] => None
  | _ =>
      let '(maxDelaySeconds, isCancelled) := delayLoop (stopTimeUpdates update) 0 in
      let delayMinutes := round_div maxDelaySeconds 60 in
      let status :=
        if isCancelled then Cancelled
        else if 1 <=? Z.abs delayMinutes then Delayed
        else OnTime in
      Some {| info_delay := delayMinutes; info_status := status |}
  end.

(** [s.endsWith(suffix)]. *)
Definition endsWith (s suffix : string) : bool :=
  let n := String.length s in
  let k := String.length suffix in
  (k <=? n)%nat && String.eqb (substring (n - k) k s) suffix.

(** [getTripDelay(updates, tripId, trainNumber?)]; an absent or empty
    [trainNumber] skips the second search. *)
Definition getTripDelay (updates : list TripUpdate) (tripId' : string)
    (trainNumber' : option string) : option DelayInfo :=
  match find (fun update => String.eqb (tripId update) tripId') updates with
  | Some update => calculateTripDelay update
  | None =>
      match trainNumber' with
      | Some tn =>
          if String.eqb tn "" then None
          else
            match find (fun update =>
                          String.eqb (tripId update) tn
                          || endsWith (tripId update) ("-" +:+ tn)) updates with
            | Some update => calculateTripDelay update
            | None => None
            end
      | None => None
      end
  end.

(** The status of a delay of [delayMinutes] at a stop or over a trip. *)
Definition statusOf (isCancelled : bool) (delayMinutes : Z) : DelayStatus :=
  if isCancelled then Cancelled
  else if 1 <=? Z.abs delayMinutes then Delayed
  else OnTime.

(** [getStopDelay(updates, stopId, tripId?)]: the first stop-time update
    with the stop identifier, among the updates of the trip when a
    (non-empty) [tripId] is given, among all of them otherwise. *)
Fixpoint getStopDelay (updates : list TripUpdate) (stopId' : string)
    (tripId' : option string) : option DelayInfo :=
  match updates with
  | [] => None
  | update :: rest =>
      let otherTrip :=
        match tripId' with
        | Some tid => negb (String.eqb tid "") && negb (String.eqb (tripId update) tid)
        | None => false
        end in
      if otherTrip then getStopDelay rest stopId' tripId'
      else
        match find (fun stu => String.eqb (stopId stu) stopId') (stopTimeUpdates update) with
        | Some stu =>
            let delayMinutes := round_div (stopDelay stu) 60 in
            Some {| info_delay := delayMinutes;
                    info_status := statusOf (isSkippedOrCanceled stu) delayMinutes |}
        | None => getStopDelay rest stopId' tripId'
        end
  end.

Inductive Severity := Info | Warning | Critical.

(** [mapSeverity(severity)]; [None] is [undefined]. *)
Definition mapSeverity (severity : option string) : Severity :=
  match severity with
  | None => Info
  | Some s =>
      if String.eqb s "" then Info
      else
        let sev := toLowerCase s in
        if includes sev "severe" || includes sev "critical" then Critical
        else if includes sev "warning" || includes sev "moderate" then Warning
        else Info
  end.

(** ** Reading the tables ([parseCSV]) *)

(** [headers.forEach((header, index) => obj[header] = values[index] || '')]
    on an object that starts empty. A missing or empty cell gives the empty
    string; a later header of the same name replaces the earlier one; the
    name [__proto__] is no own property (assigning a string to it is
    ignored). *)
Fixpoint fillRow (headers : list string) (index : nat) (values : list string)
    (obj : gmap string string) : gmap string string :=
  match headers with
  | [] => obj
  | header :: rest =>
      fillRow rest (S index) values
        (if String.eqb header "__proto__" then obj
         else <[header := default ""%string (values !! index)]> obj)
  end.

(** [parseCSV(csvText)]: one object per line after the header line. *)
Definition parseCSV (csvText : string) : list (gmap string string) :=
  let lines := split "010" (trim csvText) in
  match lines with
  | header :: line :: more =>
      let headers := map trim (split "," header) in
      map (fun line => fillRow headers 0 (map trim (split "," line)) ∅)
          (line :: more)
  | _ => []
  end.

(** ** Loading the static dataset *)

Record GtfsTables := {
  t_stopTimes : list GTFSStopTime;
  t_trips : list GTFSTrip;
  t_calendar : list GTFSCalendar;
  t_calendarDates : list GTFSCalendarDate
}.

(** What [fetchGTFSData] reads from outside: the clock, whether
    [TRANSIT_API_KEY] is set, and the outcome of the remote download and of
    reading the bundled files (the parsed tables, or [None] on a failure). *)
Record FetchEnv := {
  now : Z;
  apiKey : bool;
  remoteTables : option GtfsTables;
  localTables : option GtfsTables
}.

Definition storeTables (env : FetchEnv) (t : GtfsTables) : GtfsCache :=
  {| stopTimes := t_stopTimes t;
     trips := t_trips t;
     calendar := t_calendar t;
     calendarDates := t_calendarDates t;
     lastFetch := Some (now env) |}.

Definition loadLocalGTFSData (env : FetchEnv) (gtfsCache : GtfsCache)
    : bool * GtfsCache :=
  match localTables env with
  | Some t => (true, storeTables env t)
  | None => (false, gtfsCache)
  end.

Definition cacheValid (env : FetchEnv) (gtfsCache : GtfsCache) : bool :=
  match lastFetch gtfsCache with
  | Some last => now env - last <? CACHE_DURATION_HOURS * (1000 * 60 * 60)
  | None => false
  end.

Definition fetchGTFSData (env : FetchEnv) (gtfsCache : GtfsCache)
    : bool * GtfsCache :=
  if cacheValid env gtfsCache then (true, gtfsCache)
  else
    match (if apiKey env then remoteTables env else None) with
    | Some t => (true, storeTables env t)
    | None => loadLocalGTFSData env gtfsCache
    end.

(** ** Resolving the next trains ([getScheduledTrains]) *)

(** How a block of statements ends: normally with a value, or by throwing. *)
Inductive Completion (A : Type) : Type :=
  | Normal (a : A)
  | Thrown.
Arguments Normal {A} a.
Arguments Thrown {A}.

(** How one round of the [for (const trip of activeTrips)] loop ends. *)
Inductive Step :=
  | Continue
  | Push (t : Train).

(** [time.split(':')], then [parseInt] of the hour and [padStart(2, '0')] of
    the minute and the second; a missing minute or second is [undefined],
    and calling [padStart] on it throws. *)
Definition clockParts (time : string) : Completion (num * string * string) :=
  match split ":" time with
  | h :: m :: s :: _ => Normal (parseInt h, padStart2 m, padStart2 s)
  | _ => Thrown
  end.

(** The Pacific offset chosen for a service day: daylight time when the
    instant 12:00 UTC of that day prints as PDT. *)
Definition tzOffsetOf (baseDay : Z) : Z :=
  if isPDT (baseDay * msPerDay + 12 * msPerHour) then -7 else -8.

(** The instant of one stop time on a service day. [dayOffset] is
    [Math.floor(hour / 24)], [hourNormalized] is [hour % 24] (the sign of the
    hour); the date is [baseDate] moved by [dayOffset] days; the ISO string
    built from the year, month and day of that date, the hour, the minute,
    the second and [tzOffset] is handed to [new Date]. A string that is not
    in the date-time format (a year that does not print as four digits, an
    hour that is [NaN] or negative, a minute that is not two digits below
    60, a second that is not two digits below 60 with or without a
    fraction) gives an invalid [Date], whose time value is [NaN]; what an
    engine makes of such a string is left to it by the language, and the
    model takes the date to be invalid. Service dates before the year 1000
    are outside what is modelled faithfully (the [Date] constructor reads a
    year from 0 to 99 as 19xx). *)
Definition materialize (baseDay tzOffset : Z) (hour : num) (min sec : string) : num :=
  match hour with
  | None => NaN
  | Some h =>
      let dayOffset := h / 24 in
      let hourNormalized := Z.rem h 24 in
      if hourNormalized <? 0 then NaN
      else if negb (fourDigitYear (baseDay + dayOffset)) then NaN
      else
        match two_digits min, secondsField sec with
        | Some m, Some (s, ms) =>
            if (m <? 60) && (s <? 60)
            then Some (instantAt (baseDay + dayOffset) hourNormalized m s tzOffset + ms)
            else NaN
        | _, _ => NaN
        end
  end.

(** [departureDate.getTime()] and [arrivalDate.getTime()] of a trip between
    two stop times, for the query instant [date]. *)
Definition scheduledTimes (date : Z) (originStop destStop : GTFSStopTime)
    : Completion (num * num) :=
  match clockParts (departure_time originStop), clockParts (arrival_time destStop) with
  | Normal (depHour, depMin, depSec), Normal (arrHour, arrMin, arrSec) =>
      let baseDay := pacificDay date in
      let tzOffset := tzOffsetOf baseDay in
      Normal (materialize baseDay tzOffset depHour depMin depSec,
              materialize baseDay tzOffset arrHour arrMin arrSec)
  | _, _ => Thrown
  end.

Definition minutesToMs (minutes : Z) : num := Some (minutes * 60 * 1000).

(** The two delay sources laid over the scheduled instants: the pair
    [(actualDepartureTimeMs, actualArrivalTimeMs)]. *)
Definition delayOverlay (tripUpdates : list TripUpdate)
    (caltrainAlerts : gmap string TrainDelay) (trip : GTFSTrip)
    (departure' arrival' : num) : num * num :=
  let fromFeed :=
    if (0 <? length tripUpdates)%nat then
      match getTripDelay tripUpdates (trip_id trip) None with
      | Some delayInfo =>
          if info_delay delayInfo =? 0 then (departure', arrival')
          else (JS.add departure' (minutesToMs (info_delay delayInfo)),
                JS.add arrival' (minutesToMs (info_delay delayInfo)))
      | None => (departure', arrival')
      end
    else (departure', arrival') in
  if JS.same (fst fromFeed) departure' && (0 <? size caltrainAlerts)%nat then
    match caltrainAlerts !! trip_short_name trip with
    | Some alertDelay =>
        (JS.add departure' (minutesToMs (delayMinutes alertDelay)),
         JS.add arrival' (minutesToMs (delayMinutes alertDelay)))
    | None => fromFeed
    end
  else fromFeed.

(** [hasDelay]: the actual departure differs from the scheduled one. *)
Definition hasDelay (actualDepartureTimeMs departure' : num) : bool :=
  JS.differ actualDepartureTimeMs departure'.

(** The inclusion test: [false] on either [continue]. *)
Definition included (currentTimeMs : Z)
    (actualDepartureTimeMs actualArrivalTimeMs departure' : num) : bool :=
  if JS.lt actualArrivalTimeMs (Some currentTimeMs) then false
  else if JS.lt actualDepartureTimeMs (Some currentTimeMs)
       then hasDelay actualDepartureTimeMs departure'
       else true.

Definition tripStopCount (stopTimes : list GTFSStopTime) (trip : GTFSTrip) : Z :=
  Z.of_nat (length (List.filter (fun st => String.eqb (st_trip_id st) (trip_id trip)) stopTimes)).

Definition trainTypeOf (tripStopCount : Z) : TrainType :=
  if 20 <=? tripStopCount then Local
  else if 13 <=? tripStopCount then Limited
  else Express.

(** [st.trip_id === trip.trip_id && st.stop_id === stopId]. *)
Definition atStop (trip : GTFSTrip) (sid : string) (st : GTFSStopTime) : bool :=
  String.eqb (st_trip_id st) (trip_id trip) && String.eqb (stop_id st) sid.

(** The record pushed for a trip whose scheduled instants are [dep] and
    [arr]. *)
Definition trainRecord (stopTimes : list GTFSStopTime) (isNorthbound : bool)
    (trip : GTFSTrip) (dep arr : Z) : Train :=
  {| trainNumber :=
       if String.eqb (trip_short_name trip) "" then trip_id trip
       else trip_short_name trip;
     train_tripId := trip_id trip;
     direction := if isNorthbound then Northbound else Southbound;
     departureTime := dep;
     arrivalTime := arr;
     duration := round_div (arr - dep) 60000;
     type := trainTypeOf (tripStopCount stopTimes trip) |}.

(** Whether a number is [NaN]. *)
Definition isInvalid (a : num) : bool :=
  match a with
  | Some _ => false
  | None => true
  end.

(** One round of the loop over the active trips, [trains] being the
    records pushed so far. While no record is pushed yet the round logs
    [departureDate.toISOString()], which throws on an invalid date; the
    record is built with [toISOString] of both dates. *)
Definition processTrip (stopTimes : list GTFSStopTime) (date : Z)
    (tripUpdates : list TripUpdate) (caltrainAlerts : gmap string TrainDelay)
    (isNorthbound : bool) (directionId originStopId destStopId : string)
    (trains : list Train) (trip : GTFSTrip) : Completion Step :=
  if negb (String.eqb (direction_id trip) directionId) then Normal Continue
  else
    match find (atStop trip originStopId) stopTimes,
          find (atStop trip destStopId) stopTimes with
    | Some originStop, Some destStop =>
        match scheduledTimes date originStop destStop with
        | Thrown => Thrown
        | Normal (departure', arrival') =>
            if (length trains =? 0)%nat && isInvalid departure' then Thrown
            else
              let '(actualDepartureTimeMs, actualArrivalTimeMs) :=
                delayOverlay tripUpdates caltrainAlerts trip departure' arrival' in
              if included date actualDepartureTimeMs actualArrivalTimeMs departure'
              then
                match departure', arrival' with
                | Some dep, Some arr =>
                    Normal (Push (trainRecord stopTimes isNorthbound trip dep arr))
                | _, _ => Thrown
                end
              else Normal Continue
        end
    | _, _ => Normal Continue
    end.

(** The loop: [trains] collects the pushed records in order; a throw in
    any round leaves the loop. *)
Fixpoint tripLoop (body : list Train -> GTFSTrip -> Completion Step)
    (activeTrips : list GTFSTrip) (trains : list Train) : Completion (list Train) :=
  match activeTrips with
  | [] => Normal trains
  | trip :: rest =>
      match body trains trip with
      | Thrown => Thrown
      | Normal Continue => tripLoop body rest trains
      | Normal (Push t) => tripLoop body rest (trains ++ [t])
      end
  end.

(** [trains.sort((a, b) => departure a - departure b)]: the stable sort by
    departure instant. *)
Fixpoint insertByDeparture (t : Train) (l : list Train) : list Train :=
  match l with
  | [] => [t]
  | u :: rest =>
      if departureTime t <=? departureTime u then t :: l
      else u :: insertByDeparture t rest
  end.

Definition sortByDeparture (trains : list Train) : list Train :=
  foldr insertByDeparture [] trains.

Section GetScheduledTrains.

(** [stations] and [getStationById] of [lib/stations.ts], which is not part
    of the sources: the table ordered north to south and its lookup. *)
Variable stations : list Station.
Variable getStationById : string -> option Station.

(** [isNorthbound]: the origin lies after the destination in the table. *)
Definition northbound (originStationId destinationStationId : string) : bool :=
  findIndex (fun s => String.eqb (id s) destinationStationId) stations
  <? findIndex (fun s => String.eqb (id s) originStationId) stations.

(** [directionId]: 0 = northbound, 1 = southbound. *)
Definition directionIdOf (originStationId destinationStationId : string) : string :=
  if northbound originStationId destinationStationId then "0" else "1".

(** The body of [getScheduledTrains] once the dataset is loaded. The inner
    [try] around the loop turns a throw into the empty list. *)
Definition resolveTrains (gtfsCache : GtfsCache)
    (originStationId destinationStationId : string) (date : Z)
    (tripUpdates : list TripUpdate) (caltrainAlerts : gmap string TrainDelay)
    : Completion (list Train) :=
  match getStationById originStationId, getStationById destinationStationId with
  | Some originStation, Some destinationStation =>
      match getActiveServiceId date (calendar gtfsCache) (calendarDates gtfsCache) with
      | None => Normal []
      | Some serviceId =>
          if String.eqb serviceId "" then Normal []
          else
            let activeTrips :=
              List.filter (fun trip => String.eqb (service_id trip) serviceId) (trips gtfsCache) in
            let isNorthbound := northbound originStationId destinationStationId in
            let directionId := directionIdOf originStationId destinationStationId in
            let originStopId := findGTFSStopId (code originStation) directionId in
            let destStopId := findGTFSStopId (code destinationStation) directionId in
            match tripLoop
                    (processTrip (stopTimes gtfsCache) date tripUpdates caltrainAlerts
                       isNorthbound directionId originStopId destStopId)
                    activeTrips [] with
            | Thrown => Normal []
            | Normal trains => Normal (take 5 (sortByDeparture trains))
            end
      end
  | _, _ => Normal []
  end.

(** [getScheduledTrains] on a valid date, from the [try] on: the result and
    the cache afterwards. The outer [try] turns a throw into the empty
    list. *)
Definition scheduledTrainsTry (env : FetchEnv) (gtfsCache : GtfsCache)
    (originStationId destinationStationId : string) (date : Z)
    (tripUpdates : list TripUpdate) (caltrainAlerts : gmap string TrainDelay)
    : Completion (list Train) * GtfsCache :=
  let '(loaded, gtfsCache') := fetchGTFSData env gtfsCache in
  if negb loaded || (length (trips gtfsCache') =? 0)%nat then (Normal [], gtfsCache')
  else
    match resolveTrains gtfsCache' originStationId destinationStationId date
            tripUpdates caltrainAlerts with
    | Thrown => (Normal [], gtfsCache')
    | Normal trains => (Normal trains, gtfsCache')
    end.

(** [getScheduledTrains]: what the caller's promise settles to ([Thrown]: it
    rejects), and the cache afterwards. [date] is the time value of the
    [Date] passed, [NaN] for an invalid date. The span is started before
    the [try], and its attributes hold [date.toISOString()], which throws
    on an invalid date; nothing else has run by then. *)
Definition getScheduledTrains (env : FetchEnv) (gtfsCache : GtfsCache)
    (originStationId destinationStationId : string) (date : num)
    (tripUpdates : list TripUpdate) (caltrainAlerts : gmap string TrainDelay)
    : Completion (list Train) * GtfsCache :=
  match date with
  | None => (Thrown, gtfsCache)
  | Some time =>
      scheduledTrainsTry env gtfsCache originStationId destinationStationId time
        tripUpdates caltrainAlerts
  end.

End GetScheduledTrains.

(** ** Vocabulary of the specification *)

(** *** Calendar resolution *)

Definition addedOn (ds : string) (cd : GTFSCalendarDate) : Prop :=
  cd_date cd = ds /\ exception_type cd = "1"%string.

Definition removedOn (ds sid : string) (cd : GTFSCalendarDate) : Prop :=
  cd_date cd = ds /\ cd_service_id cd = sid /\ exception_type cd = "2"%string.

(** The date, read as a number, lies in [[start_date, end_date]]. *)
Definition inRange (ds : string) (cal : GTFSCalendar) : Prop :=
  exists s e c,
    parseInt (start_date cal) = Some s /\ parseInt (end_date cal) = Some e
    /\ parseInt ds = Some c /\ s <= c <= e.

(** A calendar matches a date: in range, weekday flag set, not removed. *)
Definition weeklyMatch (dow : Z) (ds : string)
    (calendarDates : list GTFSCalendarDate) (cal : GTFSCalendar) : Prop :=
  inRange ds cal
  /\ dayFlag cal dow = Some "1"%string
  /\ ~ (exists cd, In cd calendarDates /\ removedOn ds (cal_service_id cal) cd).

(** The dates of a calendar are numerals, as [YYYYMMDD] is. *)
Definition numericDates (cal : GTFSCalendar) : Prop :=
  is_Some (parseInt (start_date cal)) /\ is_Some (parseInt (end_date cal)).

(** The priority rule as the specification states it, for every date,
    calendar list and exception list: the active service is that of an added
    exception of the date when there is one, else that of the first calendar
    in dataset order that matches, else none. *)
Definition priorityRule : Prop :=
  forall date calendar calendarDates,
    let info := getPacificTimeInfo date in
    let active := getActiveServiceId date calendar calendarDates in
    ((exists cd, In cd calendarDates /\ addedOn (dateStr info) cd) ->
       exists cd, In cd calendarDates /\ addedOn (dateStr info) cd
                  /\ active = Some (cd_service_id cd))
    /\ (~ (exists cd, In cd calendarDates /\ addedOn (dateStr info) cd) ->
        (forall pre cal post,
            calendar = pre ++ cal :: post ->
            Forall (fun c => ~ weeklyMatch (dayOfWeek info) (dateStr info) calendarDates c)
              pre ->
            weeklyMatch (dayOfWeek info) (dateStr info) calendarDates cal ->
            active = Some (cal_service_id cal))
        /\ (Forall (fun c => ~ weeklyMatch (dayOfWeek info) (dateStr info) calendarDates c)
              calendar ->
            active = None)).

(** *** Materializing stop times *)

(** A stop-time string reads as hour [h], minute [m], second [s]: three
    fields between colons, the hour a numeral, the minute and the second
    two digits (one digit is padded) below 60. *)
Definition readsAs (time : string) (h m s : Z) : Prop :=
  exists hs ms ss rest,
    split ":" time = hs :: ms :: ss :: rest /\ parseInt hs = Some h
    /\ two_digits (padStart2 ms) = Some m /\ secondsField (padStart2 ss) = Some (s, 0)
    /\ 0 <= h /\ m < 60 /\ s < 60.

(** The statement that each endpoint is composed with the offset of its own
    civil date, the arrival falling on a later day. *)
Definition ownDateOffset : Prop :=
  forall date originStop destStop hd md sd ha ma sa,
    readsAs (departure_time originStop) hd md sd ->
    readsAs (arrival_time destStop) ha ma sa ->
    24 <= ha ->
    scheduledTimes date originStop destStop =
      Normal
        (Some (instantAt (pacificDay date + hd / 24) (hd mod 24) md sd
                 (tzOffsetOf (pacificDay date + hd / 24))),
         Some (instantAt (pacificDay date + ha / 24) (ha mod 24) ma sa
                 (tzOffsetOf (pacificDay date + ha / 24)))).

(** *** Delay overlay *)

(** [m] is a per-stop delay of the largest magnitude among the stops. *)
Definition isMaxMagnitudeDelay (stops : list StopTimeUpdate) (m : Z) : Prop :=
  (exists stop, In stop stops /\ stopDelay stop = m)
  /\ forall stop, In stop stops -> Z.abs (stopDelay stop) <= Z.abs m.

(** No stop of the update is skipped or cancelled. *)
Definition notCancelled (update : TripUpdate) : Prop :=
  forall stop, In stop (stopTimeUpdates update) -> isSkippedOrCanceled stop = false.

(** Some stop of the update has the relationship SKIPPED or CANCELED. *)
Definition hasCancelledStop (update : TripUpdate) : Prop :=
  exists stop, In stop (stopTimeUpdates update)
    /\ (scheduleRelationship stop = Some "SKIPPED"%string
        \/ scheduleRelationship stop = Some "CANCELED"%string).

(** The first update of the feed whose [tripId] is exactly the trip's. *)
Definition feedMatch (tripUpdates : list TripUpdate) (trip : GTFSTrip)
    : option TripUpdate :=
  find (fun update => String.eqb (tripId update) (trip_id trip)) tripUpdates.

(** The statement that the feed's delay of a matched, running trip is what
    the overlay adds to both instants, whatever the scraped map holds. *)
Definition feedDelayAlwaysApplied : Prop :=
  forall tripUpdates caltrainAlerts trip update dep arr,
    feedMatch tripUpdates trip = Some update ->
    stopTimeUpdates update <> [] ->
    notCancelled update ->
    exists m,
      isMaxMagnitudeDelay (stopTimeUpdates update) m
      /\ delayOverlay tripUpdates caltrainAlerts trip (Some dep) (Some arr) =
           (Some (dep + round_div m 60 * 60 * 1000),
            Some (arr + round_div m 60 * 60 * 1000)).

(** *** Selection *)

Definition byDeparture (a b : Train) : Prop := departureTime a <= departureTime b.

(** The number of stop-time rows that bear a trip identifier. *)
Definition stopRows (stopTimes : list GTFSStopTime) (tid : string) : Z :=
  Z.of_nat (length (List.filter (fun st => String.eqb (st_trip_id st) tid) stopTimes)).

(** ** Sample data

    A small dataset in the shape of the Caltrain feed: a weekday service
    with one southbound local train from San Francisco to San Jose, and a
    Saturday service with a late train that arrives after midnight. *)

Module Sample.

Definition row (tid arr dep sid : string) (n : Z) : GTFSStopTime :=
  {| st_trip_id := tid; arrival_time := arr; departure_time := dep;
     stop_id := sid; stop_sequence := n |}.

Definition weekdays : GTFSCalendar :=
  {| cal_service_id := "WKDY";
     monday := "1"; tuesday := "1"; wednesday := "1"; thursday := "1";
     friday := "1"; saturday := "0"; sunday := "0";
     start_date := "20240101"; end_date := "20241231" |}.

Definition saturdays : GTFSCalendar :=
  {| cal_service_id := "SAT";
     monday := "0"; tuesday := "0"; wednesday := "0"; thursday := "0";
     friday := "0"; saturday := "1"; sunday := "0";
     start_date := "20240101"; end_date := "20241231" |}.

(** A calendar row cut short: the dates are missing. *)
Definition undated : GTFSCalendar :=
  {| cal_service_id := "ANY";
     monday := "1"; tuesday := "1"; wednesday := "1"; thursday := "1";
     friday := "1"; saturday := "1"; sunday := "1";
     start_date := ""; end_date := "" |}.

(** Independence Day 2024: the weekday service is removed and a holiday
    service added. *)
Definition holidayAdded : GTFSCalendarDate :=
  {| cd_service_id := "HOL"; cd_date := "20240704"; exception_type := "1" |}.

Definition weekdayRemoved : GTFSCalendarDate :=
  {| cd_service_id := "WKDY"; cd_date := "20240704"; exception_type := "2" |}.

Definition trip (tid sid short dir : string) : GTFSTrip :=
  {| trip_id := tid; route_id := "L1"; service_id := sid;
     trip_short_name := short; trip_headsign := "San Jose Diridon";
     direction_id := dir |}.

Definition t101 : GTFSTrip := trip "T101" "WKDY" "101" "1".
Definition t199 : GTFSTrip := trip "T199" "SAT" "199" "1".

(** Twenty stops between the two ends of train 101. *)
Definition intermediate : list GTFSStopTime :=
  map (fun k => row "T101" "08:20:00" "08:20:00"
                  ("71" +:+ fixed_digits 2 k +:+ "2")%string (k + 1))
      (map Z.of_nat (List.seq 1 20)).

Definition sfDeparture : GTFSStopTime := row "T101" "08:00:00" "08:00:00" "70012" 1.
Definition sjArrival : GTFSStopTime := row "T101" "08:45:00" "08:45:00" "70262" 22.
Definition lateDeparture : GTFSStopTime := row "T199" "23:40:00" "23:40:00" "70012" 1.
Definition lateArrival : GTFSStopTime := row "T199" "26:30:00" "26:30:00" "70262" 2.

Definition tables : GtfsTables :=
  {| t_stopTimes := sfDeparture :: intermediate ++ [sjArrival; lateDeparture; lateArrival];
     t_trips := [t101; t199];
     t_calendar := [weekdays; saturdays];
     t_calendarDates := [holidayAdded; weekdayRemoved] |}.

Definition emptyCache : GtfsCache :=
  {| stopTimes := []; trips := []; calendar := []; calendarDates := [];
     lastFetch := None |}.

(** No API key, the bundled files readable. *)
Definition env : FetchEnv :=
  {| now := 1717500000000; apiKey := false; remoteTables := None;
     localTables := Some tables |}.

(** No API key and no bundled files. *)
Definition offline : FetchEnv :=
  {| now := 1717500000000; apiKey := false; remoteTables := None;
     localTables := None |}.

Definition cache : GtfsCache := snd (fetchGTFSData env emptyCache).

Definition stations : list Station :=
  [ {| id := "sf"; code := "SF"; name := "San Francisco" |};
    {| id := "sj"; code := "SJ"; name := "San Jose Diridon" |} ].

Definition getStationById (sid : string) : option Station :=
  find (fun s => String.eqb (id s) sid) stations.

(** 2024-06-04 (a Tuesday) at 07:00 and at 08:15 Pacific daylight time. *)
Definition tuesday0700 : Z := days_from_civil 2024 6 4 * msPerDay + 14 * msPerHour.
Definition tuesday0815 : Z := tuesday0700 + 75 * 60 * 1000.

(** 2024-07-04 (a Thursday) at 09:00 Pacific daylight time. *)
Definition july4 : Z := days_from_civil 2024 7 4 * msPerDay + 16 * msPerHour.

(** 2024-11-02 at 13:00 Pacific daylight time, the Saturday before
    daylight time ends (2024-11-03, 02:00). *)
Definition saturday1300 : Z := days_from_civil 2024 11 2 * msPerDay + 20 * msPerHour.

Definition stopUpdate (sid : string) (n : Z) (arr dep : option Z)
    (rel : option string) : StopTimeUpdate :=
  {| stopId := sid; stopSequence := n;
     arrival := (fun d => {| delay := d; time := 0 |}) <$> arr;
     departure := (fun d => {| delay := d; time := 0 |}) <$> dep;
     scheduleRelationship := rel |}.

Definition update (tid : string) (stops : list StopTimeUpdate) : TripUpdate :=
  {| tripId := tid; routeId := "L1"; startDate := "20240604";
     startTime := "08:00:00"; stopTimeUpdates := stops |}.

(** Train 101 running 13 minutes late at its worst stop. *)
Definition late13 : TripUpdate :=
  update "T101" [stopUpdate "70012" 1 None (Some 240) None;
                 stopUpdate "70112" 8 (Some 780) None None;
                 stopUpdate "70262" 22 (Some (-60)) (Some 0) None].

(** Train 101 twenty seconds late: zero minutes. *)
Definition onTime : TripUpdate :=
  update "T101" [stopUpdate "70012" 1 None (Some 20) None].

(** Train 101 skipping a stop, with delays reported besides. *)
Definition skipping : TripUpdate :=
  update "T101" [stopUpdate "70012" 1 None (Some 780) None;
                 stopUpdate "70112" 8 (Some 900) None (Some "SKIPPED"%string)].

Definition scraped5 : gmap string TrainDelay :=
  {[ "101"%string := {| td_trainNumber := "101"; delayMinutes := 5 |} ]}.

(** The weekday timetable with the seconds missing from the departure of
    train 101 at San Francisco, and a second train that is well formed. *)
Definition t103 : GTFSTrip := trip "T103" "WKDY" "103" "1".

Definition broken : GtfsCache :=
  {| stopTimes := [row "T101" "08:00" "08:00" "70012" 1; sjArrival;
                   row "T103" "09:00:00" "09:00:00" "70012" 1;
                   row "T103" "09:45:00" "09:45:00" "70262" 2];
     trips := [t103; t101];
     calendar := [weekdays];
     calendarDates := [];
     lastFetch := Some 1717500000000 |}.

(** A rush hour: seven northbound trains from San Jose to San Francisco,
    listed out of order. *)
Definition rushTrip (n : string) : GTFSTrip := trip ("R" +:+ n) "WKDY" n "0".

Definition rushRows (n dep arr : string) : list GTFSStopTime :=
  [row ("R" +:+ n) dep dep "70261" 1; row ("R" +:+ n) arr arr "70011" 2].

Definition rushTables : GtfsTables :=
  {| t_stopTimes :=
       rushRows "406" "07:30:00" "08:35:00" ++ rushRows "402" "06:30:00" "07:35:00"
       ++ rushRows "412" "09:00:00" "10:05:00" ++ rushRows "404" "07:00:00" "08:05:00"
       ++ rushRows "410" "08:30:00" "09:35:00" ++ rushRows "408" "08:00:00" "09:05:00"
       ++ rushRows "414" "09:30:00" "10:35:00";
     t_trips := map rushTrip ["406"; "402"; "412"; "404"; "410"; "408"; "414"]%string;
     t_calendar := [weekdays; saturdays];
     t_calendarDates := [] |}.

Definition rushEnv : FetchEnv :=
  {| now := 1717500000000; apiKey := true; remoteTables := Some rushTables;
     localTables := None |}.

End Sample.

(** ** Helper lemmas: strings and numbers *)

Lemma digits_prefix_acc radix v s : is_Some (digits_prefix radix (Some v) s).
Proof.
  revert v. induction s as [|c rest IH]; intros v; simpl.
  - eauto.
  - destruct (digit_val radix c); [apply IH | eauto].
Qed.

Lemma digit_char_decimal d : In (digit_char d) decimalChars.
Proof.
  unfold digit_char.
  pose proof (Z.mod_pos_bound d 10 ltac:(lia)) as Hk.
  assert (Hcases : d mod 10 = 0 \/ d mod 10 = 1 \/ d mod 10 = 2 \/ d mod 10 = 3
                   \/ d mod 10 = 4 \/ d mod 10 = 5 \/ d mod 10 = 6
                   \/ d mod 10 = 7 \/ d mod 10 = 8 \/ d mod 10 = 9) by lia.
  repeat (destruct Hcases as [-> | Hcases]; [vm_compute; tauto |]).
  rewrite Hcases. vm_compute. tauto.
Qed.

(** A string that starts with two decimal digits reads as a number. *)
Lemma parseInt_two_decimal a b rest :
  In a decimalChars -> In b decimalChars ->
  is_Some (parseInt (String a (String b rest))).
Proof.
  intros Ha Hb. unfold decimalChars in *. simpl in Ha, Hb.
  repeat (destruct Ha as [<- | Ha]);
    try (exfalso; exact Ha);
    repeat (destruct Hb as [<- | Hb]);
    try (exfalso; exact Hb);
    apply digits_prefix_acc.
Qed.

Lemma dateStr_numeric date : is_Some (parseInt (dateStr (getPacificTimeInfo date))).
Proof.
  unfold getPacificTimeInfo.
  destruct (civil_from_days (pacificDay date)) as [[y m] d]. simpl.
  apply parseInt_two_decimal; apply digit_char_decimal.
Qed.

(** [round_div] is the nearest integer: within half a unit, ties upwards. *)
Lemma round_div_nearest n d :
  0 < d -> 2 * d * round_div n d <= 2 * n + d < 2 * d * round_div n d + 2 * d.
Proof.
  intros Hd. unfold round_div.
  pose proof (Z.mul_div_le (2 * n + d) (2 * d) ltac:(lia)).
  pose proof (Z.mul_succ_div_gt (2 * n + d) (2 * d) ltac:(lia)).
  lia.
Qed.

(** ** Helper lemmas: calendar resolution *)

Lemma isAdded_true ds cd : isAdded ds cd = true <-> addedOn ds cd.
Proof.
  unfold isAdded, addedOn.
  rewrite andb_true_iff, !String.eqb_eq. tauto.
Qed.

Lemma isRemoved_true ds sid cd : isRemoved ds sid cd = true <-> removedOn ds sid cd.
Proof.
  unfold isRemoved, removedOn.
  rewrite !andb_true_iff, !String.eqb_eq. tauto.
Qed.

Lemma find_None_iff {A} (p : A -> bool) (l : list A) :
  find p l = None <-> ~ (exists x, In x l /\ p x = true).
Proof.
  split.
  - intros Hnone [x [Hin Hp]].
    pose proof (find_none p l Hnone x Hin). congruence.
  - intros Hno. destruct (find p l) as [x|] eqn:E; [|reflexivity].
    apply find_some in E. exfalso. apply Hno. eauto.
Qed.

(** One round of the calendar loop returns exactly on a matching calendar. *)
Lemma scanCalendar_match dow ds cds cal rest :
  numericDates cal -> is_Some (parseInt ds) ->
  weeklyMatch dow ds cds cal ->
  scanCalendar dow ds cds (cal :: rest) = Some (cal_service_id cal).
Proof.
  intros _ _ [[s [e [c [Hs [He [Hc Hr]]]]]] [Hflag Hrem]].
  simpl. rewrite Hs, He, Hc. unfold JS.gt, JS.lt.
  destruct (Z.ltb_spec c s); [lia|]. destruct (Z.ltb_spec e c); [lia|]. simpl.
  assert (Hfind : find (isRemoved ds (cal_service_id cal)) cds = None).
  { apply find_None_iff. intros [cd [Hin Hp]]. apply Hrem. exists cd.
    split; [assumption | now apply isRemoved_true]. }
  rewrite Hfind, Hflag. reflexivity.
Qed.

Lemma scanCalendar_skip dow ds cds cal rest :
  numericDates cal -> is_Some (parseInt ds) ->
  ~ weeklyMatch dow ds cds cal ->
  scanCalendar dow ds cds (cal :: rest) = scanCalendar dow ds cds rest.
Proof.
  intros [[s Hs] [e He]] [c Hc] Hno. simpl. rewrite Hs, He, Hc.
  unfold JS.gt, JS.lt.
  destruct (Z.ltb_spec c s); [reflexivity|].
  destruct (Z.ltb_spec e c); [reflexivity|]. simpl.
  destruct (find (isRemoved ds (cal_service_id cal)) cds) as [cd|] eqn:Hfind;
    [reflexivity|].
  destruct (dayFlag cal dow) as [flag|] eqn:Hflag; [|reflexivity].
  destruct (String.eqb_spec flag "1"); [|reflexivity].
  exfalso. apply Hno. subst flag. repeat split.
  - exists s, e, c. repeat split; auto; lia.
  - assumption.
  - intros [cd [Hin Hr]]. apply isRemoved_true in Hr.
    pose proof (find_none _ _ Hfind cd Hin). congruence.
Qed.

Lemma scanCalendar_first dow ds cds pre cal post :
  Forall numericDates (pre ++ cal :: post) -> is_Some (parseInt ds) ->
  Forall (fun c => ~ weeklyMatch dow ds cds c) pre ->
  weeklyMatch dow ds cds cal ->
  scanCalendar dow ds cds (pre ++ cal :: post) = Some (cal_service_id cal).
Proof.
  intros Hnum Hds Hpre Hcal. induction pre as [|c0 pre IH].
  - simpl in *. inversion Hnum; subst. now apply scanCalendar_match.
  - rewrite <- app_comm_cons in *. inversion Hnum; subst. inversion Hpre; subst.
    rewrite scanCalendar_skip by assumption. now apply IH.
Qed.

Lemma scanCalendar_none dow ds cds cals :
  Forall numericDates cals -> is_Some (parseInt ds) ->
  Forall (fun c => ~ weeklyMatch dow ds cds c) cals ->
  scanCalendar dow ds cds cals = None.
Proof.
  intros Hnum Hds Hall. induction cals as [|c0 cals IH]; [reflexivity|].
  inversion Hnum; subst. inversion Hall; subst.
  rewrite scanCalendar_skip by assumption. now apply IH.
Qed.

(** ** Helper lemmas: real-time delays *)

Lemma isSkippedOrCanceled_true stop :
  isSkippedOrCanceled stop = true <->
  scheduleRelationship stop = Some "SKIPPED"%string
  \/ scheduleRelationship stop = Some "CANCELED"%string.
Proof.
  unfold isSkippedOrCanceled. destruct (scheduleRelationship stop) as [r|].
  - rewrite orb_true_iff, !String.eqb_eq.
    split; (intros [H | H]; [left | right]); congruence.
  - split; [discriminate | intros [H | H]; discriminate].
Qed.

(** A skipped stop ends the loop with the cancelled flag, whatever the
    delays before it. *)
Lemma delayLoop_cancelled stops m0 :
  (exists stop, In stop stops /\ isSkippedOrCanceled stop = true) ->
  snd (delayLoop stops m0) = true.
Proof.
  revert m0. induction stops as [|stop rest IH]; intros m0 [x [Hin Hx]].
  - destruct Hin.
  - simpl. destruct (isSkippedOrCanceled stop) eqn:Hs; [reflexivity|].
    destruct Hin as [-> | Hin]; [congruence|]. apply IH. eauto.
Qed.

(** Without a skipped stop the loop runs to the end; the result keeps the
    larger magnitude and is the start value or one of the stop delays. *)
Lemma delayLoop_running stops m0 :
  (forall stop, In stop stops -> isSkippedOrCanceled stop = false) ->
  exists m,
    delayLoop stops m0 = (m, false)
    /\ Z.abs m0 <= Z.abs m
    /\ (forall stop, In stop stops -> Z.abs (stopDelay stop) <= Z.abs m)
    /\ (m = m0 \/ exists stop, In stop stops /\ stopDelay stop = m).
Proof.
  revert m0. induction stops as [|stop rest IH]; intros m0 Hrun.
  - exists m0. simpl. repeat split; auto; try lia; try (intros ? []).
  - simpl. rewrite (Hrun stop) by (left; reflexivity).
    destruct (IH (if Z.abs m0 <? Z.abs (stopDelay stop) then stopDelay stop else m0))
      as [m [Hloop [Hge [Hall Hsrc]]]].
    { intros x Hx. apply Hrun. now right. }
    exists m. split; [exact Hloop|].
    destruct (Z.ltb_spec (Z.abs m0) (Z.abs (stopDelay stop))) as [Hlt | Hle].
    + repeat split; try lia.
      * intros x [<- | Hx]; [lia | now apply Hall].
      * right. destruct Hsrc as [-> | [x [Hx Hm]]]; [exists stop | exists x];
          simpl; auto.
    + repeat split; try lia.
      * intros x [<- | Hx]; [lia | now apply Hall].
      * destruct Hsrc as [-> | [x [Hx Hm]]]; [now left | right; exists x];
          simpl; auto.
Qed.

(** From zero, over a non-empty list, the result is a stop delay of the
    largest magnitude. *)
Lemma delayLoop_max stops :
  stops <> [] ->
  (forall stop, In stop stops -> isSkippedOrCanceled stop = false) ->
  exists m, delayLoop stops 0 = (m, false) /\ isMaxMagnitudeDelay stops m.
Proof.
  intros Hne Hrun.
  destruct (delayLoop_running stops 0 Hrun) as [m [Hloop [_ [Hall Hsrc]]]].
  exists m. split; [exact Hloop|]. split; [|exact Hall].
  destruct Hsrc as [-> | Hsrc]; [|exact Hsrc].
  destruct stops as [|stop rest]; [congruence|].
  exists stop. split; [now left|].
  specialize (Hall stop (or_introl eq_refl)). lia.
Qed.

Lemma getTripDelay_match updates trip tn update :
  feedMatch updates trip = Some update ->
  getTripDelay updates (trip_id trip) tn = calculateTripDelay update.
Proof. unfold feedMatch, getTripDelay. now intros ->. Qed.

Lemma getTripDelay_no_match updates trip :
  feedMatch updates trip = None -> getTripDelay updates (trip_id trip) None = None.
Proof. unfold feedMatch, getTripDelay. now intros ->. Qed.

Lemma calculateTripDelay_running update :
  stopTimeUpdates update <> [] -> notCancelled update ->
  exists m,
    isMaxMagnitudeDelay (stopTimeUpdates update) m
    /\ calculateTripDelay update =
         Some {| info_delay := round_div m 60;
                 info_status := if 1 <=? Z.abs (round_div m 60) then Delayed else OnTime |}.
Proof.
  intros Hne Hrun. destruct (delayLoop_max _ Hne Hrun) as [m [Hloop Hmax]].
  exists m. split; [exact Hmax|]. unfold calculateTripDelay.
  destruct (stopTimeUpdates update) as [|stop rest] eqn:E; [congruence|].
  now rewrite Hloop.
Qed.

Lemma lookup_size_pos (m : gmap string TrainDelay) k v :
  m !! k = Some v -> (0 <? size m)%nat = true.
Proof.
  intros Hk. apply Nat.ltb_lt.
  destruct (decide (size m = 0%nat)) as [Hz | Hnz]; [|lia].
  apply map_size_empty_inv in Hz. subst m. rewrite lookup_empty in Hk. discriminate.
Qed.

Lemma same_refl x : JS.same (Some x) (Some x) = true.
Proof. simpl. apply Z.eqb_refl. Qed.

Lemma same_shift x d : JS.same (Some (x + d)) (Some x) = (d =? 0).
Proof.
  simpl. destruct (Z.eqb_spec (x + d) x), (Z.eqb_spec d 0); auto; lia.
Qed.

(** ** Helper lemmas: one round of the loop *)

(** What a push tells about the round. *)
Lemma processTrip_push stopTimes date tripUpdates caltrainAlerts nb dir o d trains trip t :
  processTrip stopTimes date tripUpdates caltrainAlerts nb dir o d trains trip
    = Normal (Push t) ->
  exists originStop destStop dep arr,
    direction_id trip = dir
    /\ find (atStop trip o) stopTimes = Some originStop
    /\ find (atStop trip d) stopTimes = Some destStop
    /\ scheduledTimes date originStop destStop = Normal (Some dep, Some arr)
    /\ (let over := delayOverlay tripUpdates caltrainAlerts trip (Some dep) (Some arr) in
        included date (fst over) (snd over) (Some dep) = true)
    /\ t = trainRecord stopTimes nb trip dep arr.
Proof.
  unfold processTrip. intros H.
  destruct (String.eqb_spec (direction_id trip) dir) as [Hdir | Hdir];
    simpl in H; [|discriminate].
  destruct (find (atStop trip o) stopTimes) as [originStop|]; [|discriminate].
  destruct (find (atStop trip d) stopTimes) as [destStop|]; [|discriminate].
  destruct (scheduledTimes date originStop destStop) as [[dep' arr']|] eqn:Hs;
    [|discriminate].
  destruct ((length trains =? 0)%nat && isInvalid dep'); [discriminate|].
  destruct (delayOverlay tripUpdates caltrainAlerts trip dep' arr') as [ad aa] eqn:Ho.
  destruct (included date ad aa dep') eqn:Hinc; [|discriminate].
  destruct dep' as [dep|]; [|discriminate].
  destruct arr' as [arr|]; [|discriminate].
  inversion H; subst t. exists originStop, destStop, dep, arr.
  repeat split; auto. simpl. now rewrite Ho.
Qed.

(** A round whose trip has the direction, both stops and valid scheduled
    instants pushes or continues as the inclusion test says, whatever was
    pushed before. *)
Lemma processTrip_valid stopTimes date tripUpdates caltrainAlerts nb dir o d trains trip
    originStop destStop dep arr :
  direction_id trip = dir ->
  find (atStop trip o) stopTimes = Some originStop ->
  find (atStop trip d) stopTimes = Some destStop ->
  scheduledTimes date originStop destStop = Normal (Some dep, Some arr) ->
  processTrip stopTimes date tripUpdates caltrainAlerts nb dir o d trains trip =
    (let over := delayOverlay tripUpdates caltrainAlerts trip (Some dep) (Some arr) in
     if included date (fst over) (snd over) (Some dep)
     then Normal (Push (trainRecord stopTimes nb trip dep arr))
     else Normal Continue).
Proof.
  intros Hdir Ho Hd Hs. unfold processTrip.
  rewrite Hdir, String.eqb_refl. simpl. rewrite Ho, Hd, Hs.
  cbn [isInvalid]. rewrite andb_false_r.
  destruct (delayOverlay tripUpdates caltrainAlerts trip (Some dep) (Some arr));
    reflexivity.
Qed.

(** A round that pushes a record pushes it whatever was pushed before. *)
Lemma processTrip_push_any stopTimes date tripUpdates caltrainAlerts nb dir o d
    trains trains' trip t :
  processTrip stopTimes date tripUpdates caltrainAlerts nb dir o d trains trip
    = Normal (Push t) ->
  processTrip stopTimes date tripUpdates caltrainAlerts nb dir o d trains' trip
    = Normal (Push t).
Proof.
  intros H. pose proof H as H'. apply processTrip_push in H'.
  destruct H' as [originStop [destStop [dep [arr [Hdir [Ho [Hd [Hs _]]]]]]]].
  rewrite (processTrip_valid _ _ _ _ _ _ _ _ trains _ _ _ _ _ Hdir Ho Hd Hs) in H.
  now rewrite (processTrip_valid _ _ _ _ _ _ _ _ trains' _ _ _ _ _ Hdir Ho Hd Hs).
Qed.

(** The overlay of valid instants is a pair of valid instants, shifted by
    the same amount. *)
Lemma delayOverlay_shift tripUpdates caltrainAlerts trip dep arr :
  exists shift,
    delayOverlay tripUpdates caltrainAlerts trip (Some dep) (Some arr)
      = (Some (dep + shift), Some (arr + shift)).
Proof.
  unfold delayOverlay.
  set (fromFeed := if (0 <? length tripUpdates)%nat then _ else _).
  assert (Hfeed : exists sh, fromFeed = (Some (dep + sh), Some (arr + sh))).
  { subst fromFeed. destruct (0 <? length tripUpdates)%nat.
    - destruct (getTripDelay tripUpdates (trip_id trip) None) as [i|].
      + destruct (info_delay i =? 0).
        * exists 0. now rewrite !Z.add_0_r.
        * eexists. reflexivity.
      + exists 0. now rewrite !Z.add_0_r.
    - exists 0. now rewrite !Z.add_0_r. }
  destruct Hfeed as [sh ->]. simpl fst.
  destruct (JS.same (Some (dep + sh)) (Some dep) && (0 <? size caltrainAlerts)%nat).
  - destruct (caltrainAlerts !! trip_short_name trip) as [td|].
    + eexists. reflexivity.
    + eauto.
  - eauto.
Qed.

(** ** Helper lemmas: the loop, the sort and the cut *)

Lemma tripLoop_pushed_from body activeTrips trains res t :
  tripLoop body activeTrips trains = Normal res -> In t res ->
  In t trains
  \/ exists trip before, In trip activeTrips /\ body before trip = Normal (Push t).
Proof.
  revert trains. induction activeTrips as [|trip rest IH]; intros trains H Hin;
    simpl in H.
  - inversion H; subst. now left.
  - destruct (body trains trip) as [[|t']|] eqn:Hb; [| |discriminate].
    + destruct (IH _ H Hin) as [Ht | [x [b [Hx Hp]]]]; [now left|].
      right. exists x, b. split; [now right | exact Hp].
    + destruct (IH _ H Hin) as [Ht | [x [b [Hx Hp]]]].
      * apply in_app_or in Ht. destruct Ht as [Ht | [<- | []]]; [now left|].
        right. exists trip, trains. split; [now left | exact Hb].
      * right. exists x, b. split; [now right | exact Hp].
Qed.

Lemma tripLoop_pushed body activeTrips res t :
  tripLoop body activeTrips [] = Normal res -> In t res ->
  exists trip before, In trip activeTrips /\ body before trip = Normal (Push t).
Proof.
  intros H Hin. destruct (tripLoop_pushed_from _ _ _ _ _ H Hin) as [[] | Hex].
  exact Hex.
Qed.

Lemma tripLoop_keeps body activeTrips trains res t :
  tripLoop body activeTrips trains = Normal res -> In t trains -> In t res.
Proof.
  revert trains. induction activeTrips as [|trip rest IH]; intros trains H Hin;
    simpl in H.
  - inversion H; subst. exact Hin.
  - destruct (body trains trip) as [[|t']|]; [| |discriminate].
    + now apply (IH _ H).
    + apply (IH _ H). apply in_or_app. now left.
Qed.

Lemma insertByDeparture_perm t l : Permutation (insertByDeparture t l) (t :: l).
Proof.
  induction l as [|u rest IH]; simpl; [reflexivity|].
  destruct (departureTime t <=? departureTime u); [reflexivity|].
  rewrite IH. apply perm_swap.
Qed.

Lemma sortByDeparture_perm l : Permutation (sortByDeparture l) l.
Proof.
  induction l as [|t rest IH]; simpl; [reflexivity|].
  rewrite insertByDeparture_perm. now constructor.
Qed.

Lemma insertByDeparture_sorted t l :
  StronglySorted byDeparture l -> StronglySorted byDeparture (insertByDeparture t l).
Proof.
  induction 1 as [|u rest Hs IH Hall]; simpl.
  - repeat constructor.
  - destruct (Z.leb_spec (departureTime t) (departureTime u)) as [Hle | Hgt].
    + constructor; [now constructor|]. constructor; [exact Hle|].
      eapply Forall_impl; [exact Hall|]. unfold byDeparture. intros; lia.
    + constructor; [exact IH|].
      eapply Permutation_Forall; [symmetry; apply insertByDeparture_perm|].
      constructor; [unfold byDeparture; lia | exact Hall].
Qed.

Lemma sortByDeparture_sorted l : StronglySorted byDeparture (sortByDeparture l).
Proof.
  induction l as [|t rest IH]; simpl; [constructor|].
  now apply insertByDeparture_sorted.
Qed.

Lemma take_sorted n (l : list Train) :
  StronglySorted byDeparture l -> StronglySorted byDeparture (take n l).
Proof.
  intros Hs. revert n. induction Hs as [|u rest Hs IH Hall]; intros [|n]; simpl;
    try constructor.
  - apply IH.
  - apply Forall_forall. intros x Hx. rewrite Forall_forall in Hall. apply Hall.
    apply elem_of_take in Hx.
    destruct Hx as [i [Hi _]]. eapply list_elem_of_lookup_2; eauto.
Qed.

Lemma sorted_lookup (l : list Train) i j a b :
  StronglySorted byDeparture l -> (i < j)%nat ->
  l !! i = Some a -> l !! j = Some b -> departureTime a <= departureTime b.
Proof.
  intros Hs. revert i j. induction Hs as [|u rest Hs IH Hall]; intros i j Hij Ha Hb.
  - discriminate.
  - destruct j as [|j]; [lia|]. simpl in Hb. destruct i as [|i]; simpl in Ha.
    + inversion Ha; subst u. rewrite Forall_forall in Hall. apply Hall.
      eapply list_elem_of_lookup_2; eauto.
    + apply (IH i j); [lia | exact Ha | exact Hb].
Qed.

(** ** Helper lemmas: the entry point *)

(** The result is empty, or the five earliest of the records the loop
    pushed for the active trips. *)
Lemma resolveTrains_result stations getStationById gtfsCache o d date
    tripUpdates caltrainAlerts :
  exists l,
    resolveTrains stations getStationById gtfsCache o d date tripUpdates caltrainAlerts
      = Normal l
    /\ (l = []
        \/ exists originStation destinationStation serviceId trains,
             getStationById o = Some originStation
             /\ getStationById d = Some destinationStation
             /\ getActiveServiceId date (calendar gtfsCache) (calendarDates gtfsCache)
                  = Some serviceId
             /\ tripLoop
                  (processTrip (stopTimes gtfsCache) date tripUpdates caltrainAlerts
                     (northbound stations o d) (directionIdOf stations o d)
                     (findGTFSStopId (code originStation) (directionIdOf stations o d))
                     (findGTFSStopId (code destinationStation) (directionIdOf stations o d)))
                  (List.filter (fun trip => String.eqb (service_id trip) serviceId)
                     (trips gtfsCache)) []
                  = Normal trains
             /\ l = take 5 (sortByDeparture trains)).
Proof.
  unfold resolveTrains.
  destruct (getStationById o) as [originStation|]; [|eauto].
  destruct (getStationById d) as [destinationStation|]; [|eauto].
  destruct (getActiveServiceId _ _ _) as [serviceId|]; [|eauto].
  destruct (String.eqb serviceId ""); [eauto|].
  destruct (tripLoop _ _ _) as [trains|] eqn:Hloop; [|eauto].
  eexists. split; [reflexivity|]. right.
  exists originStation, destinationStation, serviceId, trains. auto.
Qed.

Lemma getScheduledTrains_result stations getStationById env gtfsCache o d date
    tripUpdates caltrainAlerts :
  exists l,
    fst (getScheduledTrains stations getStationById env gtfsCache o d (Some date)
           tripUpdates caltrainAlerts) = Normal l
    /\ (l = []
        \/ resolveTrains stations getStationById (snd (fetchGTFSData env gtfsCache))
             o d date tripUpdates caltrainAlerts = Normal l).
Proof.
  unfold getScheduledTrains, scheduledTrainsTry.
  destruct (fetchGTFSData env gtfsCache) as [loaded cache'] eqn:Hf. simpl snd.
  destruct (negb loaded || (length (trips cache') =? 0)%nat); [simpl; eauto|].
  destruct (resolveTrains_result stations getStationById cache' o d date
              tripUpdates caltrainAlerts) as [l [Hl _]].
  rewrite Hl. simpl. eauto.
Qed.

(** Every record of the result was pushed by the round of a trip of the
    dataset, for the direction and the stops of the request. *)
Lemma getScheduledTrains_pushed stations getStationById env gtfsCache o d date
    tripUpdates caltrainAlerts l t :
  fst (getScheduledTrains stations getStationById env gtfsCache o d (Some date)
         tripUpdates caltrainAlerts) = Normal l ->
  In t l ->
  exists originStation destinationStation trip before,
    getStationById o = Some originStation
    /\ getStationById d = Some destinationStation
    /\ In trip (trips (snd (fetchGTFSData env gtfsCache)))
    /\ processTrip (stopTimes (snd (fetchGTFSData env gtfsCache))) date
         tripUpdates caltrainAlerts
         (northbound stations o d) (directionIdOf stations o d)
         (findGTFSStopId (code originStation) (directionIdOf stations o d))
         (findGTFSStopId (code destinationStation) (directionIdOf stations o d))
         before trip = Normal (Push t).
Proof.
  intros Hres Hin.
  destruct (getScheduledTrains_result stations getStationById env gtfsCache o d date
              tripUpdates caltrainAlerts) as [l' [Hl' Hcase]].
  rewrite Hres in Hl'. inversion Hl'; subst l'. clear Hl'.
  destruct Hcase as [-> | Hr]; [destruct Hin|].
  destruct (resolveTrains_result stations getStationById
              (snd (fetchGTFSData env gtfsCache)) o d date tripUpdates caltrainAlerts)
    as [l' [Hl' Hcase]].
  rewrite Hr in Hl'. inversion Hl'; subst l'. clear Hl'.
  destruct Hcase as [-> | [os [ds [sid [trains [Ho [Hd [_ [Hloop ->]]]]]]]]];
    [destruct Hin|].
  assert (Hin' : In t trains).
  { rewrite <- list_elem_of_In in Hin |- *. apply elem_of_take in Hin.
    destruct Hin as [i [Hi _]]. apply list_elem_of_lookup_2 in Hi.
    rewrite list_elem_of_In in Hi |- *.
    eapply Permutation_in; [apply sortByDeparture_perm | exact Hi]. }
  destruct (tripLoop_pushed _ _ _ _ Hloop Hin') as [trip [before [Htrip Hpush]]].
  exists os, ds, trip, before. repeat split; auto.
  apply filter_In in Htrip. tauto.
Qed.

(** ** Properties: calendar resolution *)

(** C2, as stated, fails: a calendar whose start and end dates are not
    numerals (a row cut short) contains no date in its range, so with that
    calendar alone and no exception the rule answers none; the code reads the
    dates with [parseInt], compares with [NaN], and answers that calendar's
    service. *)
Lemma priorityRule_fails : ~ priorityRule.
Proof.
  intros Hrule.
  specialize (Hrule Sample.tuesday0700 [Sample.undated] []). cbv zeta in Hrule.
  destruct Hrule as [_ Hweekly].
  destruct Hweekly as [_ Hnone]; [intros [cd [[] _]]|].
  assert (Hcode : getActiveServiceId Sample.tuesday0700 [Sample.undated] []
                  = Some "ANY"%string) by (vm_compute; reflexivity).
  rewrite Hnone in Hcode; [discriminate|].
  constructor; [|constructor].
  intros [[s [e [c [Hs _]]]] _]. vm_compute in Hs. discriminate.
Qed.

(** C2 (amended). For every query date, calendar list and exception list,
    the start and end dates of the calendars being numerals: when an
    exception of type added exists for the normalized date,
    [getActiveServiceId] returns the service of such an exception; otherwise
    it returns the service of the first calendar, in dataset order, whose
    range contains the date, whose weekday flag is set and which has no
    removed exception on that date; otherwise none. *)
Theorem getActiveServiceId_priority date calendar calendarDates :
  Forall numericDates calendar ->
  let info := getPacificTimeInfo date in
  let active := getActiveServiceId date calendar calendarDates in
  ((exists cd, In cd calendarDates /\ addedOn (dateStr info) cd) ->
     exists cd, In cd calendarDates /\ addedOn (dateStr info) cd
                /\ active = Some (cd_service_id cd))
  /\ (~ (exists cd, In cd calendarDates /\ addedOn (dateStr info) cd) ->
      (forall pre cal post,
          calendar = pre ++ cal :: post ->
          Forall (fun c => ~ weeklyMatch (dayOfWeek info) (dateStr info) calendarDates c) pre ->
          weeklyMatch (dayOfWeek info) (dateStr info) calendarDates cal ->
          active = Some (cal_service_id cal))
      /\ (Forall (fun c => ~ weeklyMatch (dayOfWeek info) (dateStr info) calendarDates c)
            calendar ->
          active = None)).
Proof.
  intros Hnum info active. subst active. unfold getActiveServiceId. fold info.
  pose proof (dateStr_numeric date) as Hds. fold info in Hds.
  split.
  - intros Hex.
    destruct (find (isAdded (dateStr info)) calendarDates) as [cd|] eqn:Hfind.
    + apply find_some in Hfind. destruct Hfind as [Hin Hadd].
      exists cd. rewrite isAdded_true in Hadd. auto.
    + exfalso. apply find_None_iff in Hfind. apply Hfind.
      destruct Hex as [cd [Hin Hadd]]. exists cd. now rewrite isAdded_true.
  - intros Hno.
    assert (Hfind : find (isAdded (dateStr info)) calendarDates = None).
    { apply find_None_iff. intros [cd [Hin Hadd]]. apply Hno. exists cd.
      now rewrite <- isAdded_true. }
    rewrite Hfind. split.
    + intros pre cal post -> Hpre Hcal. now apply scanCalendar_first.
    + intros Hall. now apply scanCalendar_none.
Qed.

Lemma getActiveServiceId_priority_witness :
  Forall numericDates [Sample.weekdays; Sample.saturdays]
  /\ getActiveServiceId Sample.tuesday0700 [Sample.weekdays; Sample.saturdays]
       [Sample.holidayAdded; Sample.weekdayRemoved] = Some "WKDY"%string
  /\ getActiveServiceId Sample.july4 [Sample.weekdays; Sample.saturdays]
       [Sample.holidayAdded; Sample.weekdayRemoved] = Some "HOL"%string.
Proof.
  assert (Hnum : Forall numericDates [Sample.weekdays; Sample.saturdays]).
  { repeat constructor; vm_compute; eauto. }
  split; [exact Hnum|]. split.
  - destruct (getActiveServiceId_priority Sample.tuesday0700 _
                [Sample.holidayAdded; Sample.weekdayRemoved] Hnum) as [_ Hweekly].
    destruct Hweekly as [Hfirst _].
    { intros [cd [Hin [Hd _]]]. simpl in Hin.
      destruct Hin as [<- | [<- | []]]; vm_compute in Hd; discriminate. }
    apply (Hfirst [] Sample.weekdays [Sample.saturdays]);
      [reflexivity | constructor |].
    repeat split.
    + exists 20240101, 20241231, 20240604. vm_compute. repeat split; congruence.
    + intros [cd [Hin [Hd _]]]. simpl in Hin.
      destruct Hin as [<- | [<- | []]]; vm_compute in Hd; discriminate.
  - destruct (getActiveServiceId_priority Sample.july4 _
                [Sample.holidayAdded; Sample.weekdayRemoved] Hnum) as [Hadded _].
    destruct Hadded as [cd [Hin [[_ Htype] ->]]].
    { exists Sample.holidayAdded. split; [now left|]. vm_compute. auto. }
    simpl in Hin. destruct Hin as [<- | [<- | []]].
    + reflexivity.
    + vm_compute in Htype. discriminate.
Defined.

(** ** Properties: the delay overlay *)

(** C5. For every trip update in which some stop-time update has the
    relationship SKIPPED or CANCELED, the computed delay result has status
    cancelled, whatever the delay fields of its stop-time updates are; so
    has the result [getTripDelay] computes for a trip this update is the
    exact match of. *)
Theorem cancelled_regardless_of_delays update :
  hasCancelledStop update ->
  (exists d, calculateTripDelay update
             = Some {| info_delay := d; info_status := Cancelled |})
  /\ (forall updates trip trainNumber',
        feedMatch updates trip = Some update ->
        info_status <$> getTripDelay updates (trip_id trip) trainNumber'
          = Some Cancelled).
Proof.
  intros [stop [Hin Hrel]].
  assert (Hcalc : exists d, calculateTripDelay update
                            = Some {| info_delay := d; info_status := Cancelled |}).
  { unfold calculateTripDelay.
    pose proof (delayLoop_cancelled (stopTimeUpdates update) 0) as Hloop.
    destruct (stopTimeUpdates update) as [|s0 rest] eqn:E; [destruct Hin|].
    destruct (delayLoop (s0 :: rest) 0) as [m c]. simpl in Hloop.
    rewrite Hloop.
    - eauto.
    - exists stop. split; [exact Hin|]. now apply isSkippedOrCanceled_true. }
  split; [exact Hcalc|].
  intros updates trip tn Hmatch. rewrite (getTripDelay_match _ _ _ _ Hmatch).
  destruct Hcalc as [d ->]. reflexivity.
Qed.

Lemma cancelled_regardless_of_delays_witness :
  hasCancelledStop Sample.skipping
  /\ calculateTripDelay Sample.skipping
       = Some {| info_delay := 13; info_status := Cancelled |}.
Proof.
  assert (H : hasCancelledStop Sample.skipping).
  { exists (Sample.stopUpdate "70112" 8 (Some 900) None (Some "SKIPPED"%string)).
    split; [right; left; reflexivity | left; reflexivity]. }
  split; [exact H|].
  destruct (cancelled_regardless_of_delays Sample.skipping H) as [[d Hd] _].
  rewrite Hd. vm_compute in Hd. congruence.
Defined.

Lemma find_some_length {A} (p : A -> bool) (l : list A) x :
  find p l = Some x -> (0 <? length l)%nat = true.
Proof. destruct l; [discriminate | reflexivity]. Qed.

(** The overlay when the feed gives the delay [d] for the trip. *)
Lemma delayOverlay_feed tripUpdates caltrainAlerts trip info dep arr :
  (0 <? length tripUpdates)%nat = true ->
  getTripDelay tripUpdates (trip_id trip) None = Some info ->
  info_delay info <> 0 \/ caltrainAlerts !! trip_short_name trip = None ->
  delayOverlay tripUpdates caltrainAlerts trip (Some dep) (Some arr)
    = (Some (dep + info_delay info * 60 * 1000),
       Some (arr + info_delay info * 60 * 1000)).
Proof.
  intros Hlen Hfeed Hcase. unfold delayOverlay. rewrite Hlen, Hfeed.
  destruct (Z.eqb_spec (info_delay info) 0) as [Hz | Hnz].
  - destruct Hcase as [Hc | Hc]; [contradiction|].
    simpl fst. rewrite Hc, Hz, !Z.add_0_r.
    now destruct (JS.same (Some dep) (Some dep) && (0 <? size caltrainAlerts)%nat).
  - simpl fst. unfold minutesToMs. simpl JS.add. rewrite same_shift.
    destruct (Z.eqb_spec (info_delay info * 60 * 1000) 0); [lia|].
    reflexivity.
Qed.

(** C3, as stated, fails: train 101 is matched in the feed twenty seconds
    late (zero minutes) and not cancelled, the scraped map holds five
    minutes for it, and the overlay adds the five minutes, not the feed's
    zero. *)
Lemma feedDelayAlwaysApplied_fails : ~ feedDelayAlwaysApplied.
Proof.
  intros Hclaim.
  destruct (Hclaim [Sample.onTime] Sample.scraped5 Sample.t101 Sample.onTime 0 0)
    as [m [[[stop [Hin Hm]] _] Hover]].
  - reflexivity.
  - discriminate.
  - intros stop [<- | []]. reflexivity.
  - destruct Hin as [<- | []]. vm_compute in Hm. subst m.
    vm_compute in Hover. discriminate.
Qed.

(** C3 (amended). For every trip whose tripId has an exact match in the
    feed, with stop-time updates none of which is skipped or cancelled, the
    feed's overall delay is a per-stop delay of maximum absolute magnitude
    among that update's stops, in minutes rounded to the nearest minute;
    whenever that delay is not zero, or the scraped map has no entry for the
    trip's short name, it is added identically to the scheduled departure
    and the scheduled arrival, and [hasDelay] holds exactly when it is not
    zero. *)
Theorem feed_delay_applied tripUpdates caltrainAlerts trip update dep arr :
  feedMatch tripUpdates trip = Some update ->
  stopTimeUpdates update <> [] ->
  notCancelled update ->
  exists m,
    isMaxMagnitudeDelay (stopTimeUpdates update) m
    /\ info_delay <$> getTripDelay tripUpdates (trip_id trip) None
         = Some (round_div m 60)
    /\ 120 * round_div m 60 <= 2 * m + 60 < 120 * round_div m 60 + 120
    /\ (round_div m 60 <> 0 \/ caltrainAlerts !! trip_short_name trip = None ->
        let over := delayOverlay tripUpdates caltrainAlerts trip (Some dep) (Some arr) in
        over = (Some (dep + round_div m 60 * 60 * 1000),
                Some (arr + round_div m 60 * 60 * 1000))
        /\ hasDelay (fst over) (Some dep) = negb (round_div m 60 =? 0)).
Proof.
  intros Hmatch Hne Hrun.
  destruct (calculateTripDelay_running update Hne Hrun) as [m [Hmax Hcalc]].
  pose proof (getTripDelay_match tripUpdates trip None update Hmatch) as Hget.
  rewrite Hcalc in Hget.
  exists m. split; [exact Hmax|]. split; [now rewrite Hget|].
  split; [pose proof (round_div_nearest m 60 ltac:(lia)); lia|].
  intros Hcase.
  pose proof (delayOverlay_feed tripUpdates caltrainAlerts trip _ dep arr
                (find_some_length _ _ _ Hmatch) Hget Hcase) as Hover.
  cbn [info_delay] in Hover. cbv zeta. rewrite Hover. split; [reflexivity|].
  cbn [fst]. unfold hasDelay, JS.differ. rewrite same_shift. f_equal.
  destruct (Z.eqb_spec (round_div m 60 * 60 * 1000) 0),
           (Z.eqb_spec (round_div m 60) 0); auto; lia.
Qed.

Lemma feed_delay_applied_witness :
  feedMatch [Sample.late13] Sample.t101 = Some Sample.late13
  /\ delayOverlay [Sample.late13] ∅ Sample.t101 (Some 1717513200000) (Some 1717515900000)
       = (Some (1717513200000 + 13 * 60 * 1000), Some (1717515900000 + 13 * 60 * 1000))
  /\ hasDelay (Some (1717513200000 + 13 * 60 * 1000)) (Some 1717513200000) = true.
Proof.
  split; [reflexivity|].
  destruct (feed_delay_applied [Sample.late13] ∅ Sample.t101 Sample.late13
              1717513200000 1717515900000) as [m [_ [Hget [_ Happly]]]].
  - reflexivity.
  - discriminate.
  - intros stop Hin. simpl in Hin.
    destruct Hin as [<- | [<- | [<- | []]]]; reflexivity.
  - assert (Hfeed : info_delay <$> getTripDelay [Sample.late13] (trip_id Sample.t101) None
                    = Some 13) by (vm_compute; reflexivity).
    rewrite Hfeed in Hget. inversion Hget as [Hm].
    destruct Happly as [Hover Hdelay]; [right; reflexivity|].
    cbv zeta in Hdelay. rewrite Hover in Hdelay. cbn [fst] in Hdelay.
    rewrite Hover, <- Hm in *. split; [reflexivity | exact Hdelay].
Defined.

(** C4. For every trip for which the feed yields no match or a delay of
    exactly zero minutes, an entry of the scraped map under the trip's short
    name has its delay in minutes added to both the scheduled departure and
    the scheduled arrival. *)
Theorem scraped_delay_fallback tripUpdates caltrainAlerts trip alertDelay dep arr :
  feedMatch tripUpdates trip = None
  \/ (exists info, getTripDelay tripUpdates (trip_id trip) None = Some info
                   /\ info_delay info = 0) ->
  caltrainAlerts !! trip_short_name trip = Some alertDelay ->
  delayOverlay tripUpdates caltrainAlerts trip (Some dep) (Some arr)
    = (Some (dep + delayMinutes alertDelay * 60 * 1000),
       Some (arr + delayMinutes alertDelay * 60 * 1000)).
Proof.
  intros Hfeed Halert. unfold delayOverlay.
  set (fromFeed := if (0 <? length tripUpdates)%nat then _ else _).
  assert (Hfrom : fromFeed = (Some dep, Some arr)).
  { subst fromFeed. destruct (0 <? length tripUpdates)%nat; [|reflexivity].
    destruct Hfeed as [Hnone | [info [-> ->]]]; [|reflexivity].
    now rewrite (getTripDelay_no_match _ _ Hnone). }
  rewrite Hfrom. cbn [fst].
  rewrite same_refl, (lookup_size_pos _ _ _ Halert), Halert. reflexivity.
Qed.

Lemma scraped_delay_fallback_witness :
  (exists info, getTripDelay [Sample.onTime] (trip_id Sample.t101) None = Some info
                /\ info_delay info = 0)
  /\ Sample.scraped5 !! trip_short_name Sample.t101
       = Some {| td_trainNumber := "101"; delayMinutes := 5 |}
  /\ delayOverlay [Sample.onTime] Sample.scraped5 Sample.t101
       (Some 1717513200000) (Some 1717515900000)
       = (Some (1717513200000 + 5 * 60 * 1000), Some (1717515900000 + 5 * 60 * 1000)).
Proof.
  assert (Hzero : exists info,
             getTripDelay [Sample.onTime] (trip_id Sample.t101) None = Some info
             /\ info_delay info = 0).
  { eexists. split; reflexivity. }
  assert (Halert : Sample.scraped5 !! trip_short_name Sample.t101
                   = Some {| td_trainNumber := "101"; delayMinutes := 5 |}).
  { reflexivity. }
  split; [exact Hzero|]. split; [exact Halert|].
  exact (scraped_delay_fallback [Sample.onTime] Sample.scraped5 Sample.t101 _
           1717513200000 1717515900000 (or_intror Hzero) Halert).
Defined.

(** ** Properties: materializing stop times *)

Lemma materialize_reads baseDay tzOffset h min sec m s :
  0 <= h -> fourDigitYear (baseDay + h / 24) = true ->
  two_digits min = Some m -> secondsField sec = Some (s, 0) ->
  m < 60 -> s < 60 ->
  materialize baseDay tzOffset (Some h) min sec
    = Some (instantAt (baseDay + h / 24) (h mod 24) m s tzOffset).
Proof.
  intros Hh Hy Hm Hs Hm60 Hs60. unfold materialize. rewrite Hy, Hm, Hs.
  rewrite Z.rem_mod_nonneg by lia.
  pose proof (Z.mod_pos_bound h 24 ltac:(lia)).
  destruct (Z.ltb_spec (h mod 24) 0); [lia|].
  destruct (Z.ltb_spec m 60); [|lia]. destruct (Z.ltb_spec s 60); [|lia].
  cbn [negb andb]. now rewrite Z.add_0_r.
Qed.

(** C1, as stated, fails: on Saturday 2024-11-02 (daylight time) the train
    that leaves at 23:40 and arrives at 26:30 reaches its destination at
    02:30 on 2024-11-03, a day of standard time; the arrival is composed
    with the service day's offset, not with its own day's. *)
Lemma ownDateOffset_fails : ~ ownDateOffset.
Proof.
  intros Hclaim.
  specialize (Hclaim Sample.saturday1300 Sample.lateDeparture Sample.lateArrival
                23 40 0 26 30 0).
  assert (Hdep : readsAs (departure_time Sample.lateDeparture) 23 40 0).
  { exists "23"%string, "40"%string, "00"%string, []. vm_compute.
    repeat split; congruence. }
  assert (Harr : readsAs (arrival_time Sample.lateArrival) 26 30 0).
  { exists "26"%string, "30"%string, "00"%string, []. vm_compute.
    repeat split; congruence. }
  specialize (Hclaim Hdep Harr ltac:(lia)).
  vm_compute in Hclaim. discriminate.
Qed.

(** C1 (amended). For a query instant whose Pacific service date [D] is of
    the year 2007 or later, and every stop time that reads as hour [h] (24
    or more included), minute and whole second, the civil date [D + h div 24]
    being of a year of four digits (1000 to 9999): materializing it on [D]
    yields the instant at [(h mod 24):MM:SS] on the civil date [D + h div 24],
    composed with the Pacific offset of the service date [D] itself; the
    departure and the arrival of a trip are both composed with that one
    offset. *)
Theorem materialize_next_day date originStop destStop hd md sd ha ma sa :
  2007 <= civilYear (pacificDay date) ->
  readsAs (departure_time originStop) hd md sd ->
  readsAs (arrival_time destStop) ha ma sa ->
  fourDigitYear (pacificDay date + hd / 24) = true ->
  fourDigitYear (pacificDay date + ha / 24) = true ->
  scheduledTimes date originStop destStop =
    Normal
      (Some (instantAt (pacificDay date + hd / 24) (hd mod 24) md sd
               (tzOffsetOf (pacificDay date))),
       Some (instantAt (pacificDay date + ha / 24) (ha mod 24) ma sa
               (tzOffsetOf (pacificDay date)))).
Proof.
  intros _
         [hs1 [ms1 [ss1 [r1 [Hsp1 [Hh1 [Hm1 [Hs1 [Hp1 [Hlm1 Hls1]]]]]]]]]]
         [hs2 [ms2 [ss2 [r2 [Hsp2 [Hh2 [Hm2 [Hs2 [Hp2 [Hlm2 Hls2]]]]]]]]]]
         Hy1 Hy2.
  unfold scheduledTimes, clockParts. rewrite Hsp1, Hsp2, Hh1, Hh2.
  rewrite (materialize_reads _ _ hd _ _ md sd) by assumption.
  rewrite (materialize_reads _ _ ha _ _ ma sa) by assumption.
  reflexivity.
Qed.

Lemma materialize_next_day_witness :
  2007 <= civilYear (pacificDay Sample.saturday1300)
  /\ readsAs (departure_time Sample.lateDeparture) 23 40 0
  /\ readsAs (arrival_time Sample.lateArrival) 26 30 0
  /\ scheduledTimes Sample.saturday1300 Sample.lateDeparture Sample.lateArrival
     = Normal
         (Some (instantAt (days_from_civil 2024 11 2) 23 40 0 (-7)),
          Some (instantAt (days_from_civil 2024 11 3) 2 30 0 (-7))).
Proof.
  assert (Hyear : 2007 <= civilYear (pacificDay Sample.saturday1300)).
  { vm_compute. discriminate. }
  assert (Hdep : readsAs (departure_time Sample.lateDeparture) 23 40 0).
  { exists "23"%string, "40"%string, "00"%string, []. vm_compute.
    repeat split; congruence. }
  assert (Harr : readsAs (arrival_time Sample.lateArrival) 26 30 0).
  { exists "26"%string, "30"%string, "00"%string, []. vm_compute.
    repeat split; congruence. }
  split; [exact Hyear|]. split; [exact Hdep|]. split; [exact Harr|].
  rewrite (materialize_next_day Sample.saturday1300 _ _ 23 40 0 26 30 0
             Hyear Hdep Harr eq_refl eq_refl).
  vm_compute. reflexivity.
Defined.

(** The day after the sample Saturday is a day of standard time, also at
    the very instant 02:30 standard time the timetable means. *)
Example sunday_is_standard_time :
  tzOffsetOf (pacificDay Sample.saturday1300) = -7
  /\ tzOffsetOf (pacificDay Sample.saturday1300 + 26 / 24) = -8
  /\ isPDT (instantAt (days_from_civil 2024 11 3) 2 30 0 (-8)) = false.
Proof. vm_compute. auto. Qed.

(** A second with a fraction counts to the millisecond; an hour that
    carries the date past the year 9999 gives an invalid date, and on an
    invalid departure the first round of the loop throws. *)
Example materialize_fraction_and_year :
  materialize (days_from_civil 2024 6 4) (-7) (Some 8) "00" "00.5" = Some 1717513200500
  /\ materialize (days_from_civil 2024 6 4) (-7) (Some 8) "00" "00." = NaN
  /\ materialize (days_from_civil 2024 6 4) (-7) (Some 100000000) "00" "00" = NaN
  /\ processTrip
       [Sample.row "T101" "100000000:00:00" "100000000:00:00" "70012" 1; Sample.sjArrival]
       Sample.tuesday0700 [] ∅ false "1" "70012" "70262" [] Sample.t101 = Thrown.
Proof. vm_compute. auto. Qed.

(** ** Properties: selection *)

(** C6. For every candidate trip (of the direction, with both stops and
    valid scheduled instants): when its actual arrival is before the query
    instant the round skips it; when its actual departure is before the
    query instant and its actual arrival is not, the round pushes its record
    if and only if [hasDelay] is true. *)
Theorem inclusion_test stopTimes date tripUpdates caltrainAlerts nb dir o d trains trip
    originStop destStop dep arr actualDep actualArr :
  direction_id trip = dir ->
  find (atStop trip o) stopTimes = Some originStop ->
  find (atStop trip d) stopTimes = Some destStop ->
  scheduledTimes date originStop destStop = Normal (Some dep, Some arr) ->
  delayOverlay tripUpdates caltrainAlerts trip (Some dep) (Some arr)
    = (Some actualDep, Some actualArr) ->
  let round :=
    processTrip stopTimes date tripUpdates caltrainAlerts nb dir o d trains trip in
  (actualArr < date -> round = Normal Continue)
  /\ (actualDep < date -> date <= actualArr ->
      (hasDelay (Some actualDep) (Some dep) = true ->
         round = Normal (Push (trainRecord stopTimes nb trip dep arr)))
      /\ (hasDelay (Some actualDep) (Some dep) = false -> round = Normal Continue)).
Proof.
  intros Hdir Ho Hd Hs Hover round. subst round.
  rewrite (processTrip_valid _ _ _ _ _ _ _ _ _ _ _ _ _ _ Hdir Ho Hd Hs).
  cbv zeta. rewrite Hover. cbn [fst snd]. unfold included, JS.lt.
  split.
  - intros Harr. destruct (Z.ltb_spec actualArr date); [reflexivity | lia].
  - intros Hdep Harr.
    destruct (Z.ltb_spec actualArr date); [lia|].
    destruct (Z.ltb_spec actualDep date); [|lia].
    split; now intros ->.
Qed.

Lemma inclusion_test_witness :
  processTrip (stopTimes Sample.cache) Sample.tuesday0815 [] ∅ false "1" "70012" "70262"
    [] Sample.t101 = Normal Continue
  /\ processTrip (stopTimes Sample.cache) Sample.tuesday0815 [Sample.late13] ∅ false "1"
       "70012" "70262" [] Sample.t101
     = Normal (Push (trainRecord (stopTimes Sample.cache) false Sample.t101
                       1717513200000 1717515900000)).
Proof.
  assert (Ho : find (atStop Sample.t101 "70012") (stopTimes Sample.cache)
               = Some Sample.sfDeparture) by (vm_compute; reflexivity).
  assert (Hd : find (atStop Sample.t101 "70262") (stopTimes Sample.cache)
               = Some Sample.sjArrival) by (vm_compute; reflexivity).
  assert (Hs : scheduledTimes Sample.tuesday0815 Sample.sfDeparture Sample.sjArrival
               = Normal (Some 1717513200000, Some 1717515900000))
    by (vm_compute; reflexivity).
  split.
  - refine (proj2 (proj2 (inclusion_test (stopTimes Sample.cache) Sample.tuesday0815
                            [] ∅ false "1" "70012" "70262" [] Sample.t101 _ _
                            1717513200000 1717515900000
                            1717513200000 1717515900000
                            eq_refl Ho Hd Hs _) _ _) _).
    + vm_compute. reflexivity.
    + vm_compute. reflexivity.
    + vm_compute. discriminate.
    + vm_compute. reflexivity.
  - refine (proj1 (proj2 (inclusion_test (stopTimes Sample.cache) Sample.tuesday0815
                            [Sample.late13] ∅ false "1" "70012" "70262" [] Sample.t101 _ _
                            1717513200000 1717515900000
                            (1717513200000 + 780000) (1717515900000 + 780000)
                            eq_refl Ho Hd Hs _) _ _) _).
    + vm_compute. reflexivity.
    + vm_compute. reflexivity.
    + vm_compute. discriminate.
    + vm_compute. reflexivity.
Defined.

Lemma trainTypeOf_ranges n :
  (20 <= n -> trainTypeOf n = Local)
  /\ (13 <= n <= 19 -> trainTypeOf n = Limited)
  /\ (n < 13 -> trainTypeOf n = Express).
Proof.
  unfold trainTypeOf.
  destruct (Z.leb_spec 20 n), (Z.leb_spec 13 n); repeat split; intros; auto; lia.
Qed.

(** C7. For every train of the result, the type is determined by the number
    of stop-time rows that bear its tripId: 20 or more is Local, 13 to 19
    is Limited, fewer than 13 is Express; exactly 20 rows give Local, 19
    Limited and 12 Express. *)
Theorem train_type_by_stop_rows stations getStationById env gtfsCache o d date
    tripUpdates caltrainAlerts l t :
  fst (getScheduledTrains stations getStationById env gtfsCache o d (Some date)
         tripUpdates caltrainAlerts) = Normal l ->
  In t l ->
  let n := stopRows (stopTimes (snd (fetchGTFSData env gtfsCache))) (train_tripId t) in
  type t = trainTypeOf n
  /\ (20 <= n -> type t = Local)
  /\ (13 <= n <= 19 -> type t = Limited)
  /\ (n < 13 -> type t = Express)
  /\ trainTypeOf 20 = Local /\ trainTypeOf 19 = Limited /\ trainTypeOf 12 = Express.
Proof.
  intros Hres Hin n.
  destruct (getScheduledTrains_pushed _ _ _ _ _ _ _ _ _ _ _ Hres Hin)
    as [os [ds [trip [before [_ [_ [_ Hpush]]]]]]].
  apply processTrip_push in Hpush.
  destruct Hpush as [originStop [destStop [dep [arr [_ [_ [_ [_ [_ Ht]]]]]]]]].
  assert (Htype : type t = trainTypeOf n).
  { subst t n. reflexivity. }
  rewrite Htype. pose proof (trainTypeOf_ranges n) as [H20 [H13 H12]].
  repeat split; auto.
Qed.

Lemma train_type_by_stop_rows_witness :
  exists t,
    fst (getScheduledTrains Sample.stations Sample.getStationById Sample.env
           Sample.emptyCache "sf" "sj" (Some Sample.tuesday0700) [] ∅) = Normal [t]
    /\ stopRows (stopTimes (snd (fetchGTFSData Sample.env Sample.emptyCache)))
         (train_tripId t) = 22
    /\ type t = Local.
Proof.
  exists (trainRecord (stopTimes Sample.cache) false Sample.t101
            1717513200000 1717515900000).
  assert (Hres : fst (getScheduledTrains Sample.stations Sample.getStationById
                        Sample.env Sample.emptyCache "sf" "sj" (Some Sample.tuesday0700) [] ∅)
                 = Normal [trainRecord (stopTimes Sample.cache) false Sample.t101
                             1717513200000 1717515900000])
    by (vm_compute; reflexivity).
  split; [exact Hres|]. split; [vm_compute; reflexivity|].
  destruct (train_type_by_stop_rows _ _ _ _ _ _ _ _ _ _ _ Hres (or_introl eq_refl))
    as [_ [Hlocal _]].
  apply Hlocal. vm_compute. discriminate.
Defined.

(** C8. For every input (the query date being a valid date), the returned
    sequence has at most 5 entries and is sorted in ascending order of
    departure instant: for all positions [i < j] the departure at [i] is at
    most the departure at [j]; and the departure instant of each entry is
    the scheduled one of its trip, not the delay-adjusted one. *)
Theorem result_bounded_sorted stations getStationById env gtfsCache o d date
    tripUpdates caltrainAlerts :
  exists l,
    fst (getScheduledTrains stations getStationById env gtfsCache o d (Some date)
           tripUpdates caltrainAlerts) = Normal l
    /\ (length l <= 5)%nat
    /\ (forall i j a b,
          (i < j)%nat -> l !! i = Some a -> l !! j = Some b ->
          departureTime a <= departureTime b)
    /\ (forall t, In t l ->
          exists originStop destStop arr,
            st_trip_id originStop = train_tripId t
            /\ In originStop (stopTimes (snd (fetchGTFSData env gtfsCache)))
            /\ scheduledTimes date originStop destStop
                 = Normal (Some (departureTime t), Some arr)).
Proof.
  destruct (getScheduledTrains_result stations getStationById env gtfsCache o d date
              tripUpdates caltrainAlerts) as [l [Hl Hcase]].
  exists l. split; [exact Hl|].
  assert (Hshape : (length l <= 5)%nat /\ StronglySorted byDeparture l).
  { destruct Hcase as [-> | Hr]; [split; [simpl; lia | constructor]|].
    destruct (resolveTrains_result stations getStationById
                (snd (fetchGTFSData env gtfsCache)) o d date tripUpdates caltrainAlerts)
      as [l' [Hl' Hcase']].
    rewrite Hr in Hl'. inversion Hl'; subst l'.
    destruct Hcase' as [-> | [_ [_ [_ [trains [_ [_ [_ [_ ->]]]]]]]]].
    - split; [simpl; lia | constructor].
    - split; [rewrite length_take; lia|].
      apply take_sorted, sortByDeparture_sorted. }
  destruct Hshape as [Hlen Hsorted].
  split; [exact Hlen|]. split.
  - intros i j a b. now apply sorted_lookup.
  - intros t Hin.
    destruct (getScheduledTrains_pushed _ _ _ _ _ _ _ _ _ _ _ Hl Hin)
      as [os [ds [trip [before [_ [_ [_ Hpush]]]]]]].
    apply processTrip_push in Hpush.
    destruct Hpush as [originStop [destStop [dep [arr [_ [Ho [_ [Hs [_ Ht]]]]]]]]].
    exists originStop, destStop, arr. apply find_some in Ho.
    destruct Ho as [Hin' Hat]. unfold atStop in Hat.
    apply andb_true_iff in Hat. destruct Hat as [Hid _].
    apply String.eqb_eq in Hid. subst t. cbn [train_tripId departureTime trainRecord].
    auto.
Qed.

(** C9 (code bug). The query date being an invalid [Date], the entry point
    throws to its caller: the span attributes, which print the date with
    [toISOString], are evaluated before the [try] that turns every other
    failure into the empty list; no dataset is read and the cache is as it
    was. With nothing else wrong (dataset served, stations known) the same
    request at a valid date returns a list. *)
Theorem invalid_date_throws stations getStationById env gtfsCache o d
    tripUpdates caltrainAlerts :
  getScheduledTrains stations getStationById env gtfsCache o d NaN
    tripUpdates caltrainAlerts = (Thrown, gtfsCache)
  /\ exists l,
       fst (getScheduledTrains Sample.stations Sample.getStationById Sample.env
              Sample.emptyCache "sf" "sj" (Some Sample.tuesday0700) [] ∅) = Normal l.
Proof.
  split; [reflexivity|].
  eexists. vm_compute. reflexivity.
Qed.

(** X23. For every request whose query date is a valid date the entry point
    returns a list and does not throw; the list is empty when the dataset is
    not loaded or has no trip, when the origin or the destination station is
    unknown, and when no service is active on the date. *)
Theorem empty_on_unrecoverable stations getStationById env gtfsCache o d date
    tripUpdates caltrainAlerts :
  let result :=
    fst (getScheduledTrains stations getStationById env gtfsCache o d (Some date)
           tripUpdates caltrainAlerts) in
  let loaded := fst (fetchGTFSData env gtfsCache) in
  let gtfsCache' := snd (fetchGTFSData env gtfsCache) in
  (exists l, result = Normal l)
  /\ (loaded = false \/ trips gtfsCache' = [] -> result = Normal [])
  /\ (getStationById o = None \/ getStationById d = None -> result = Normal [])
  /\ (getActiveServiceId date (calendar gtfsCache') (calendarDates gtfsCache') = None ->
      result = Normal []).
Proof.
  cbv zeta. split.
  { destruct (getScheduledTrains_result stations getStationById env gtfsCache o d date
                tripUpdates caltrainAlerts) as [l [Hl _]]. eauto. }
  unfold getScheduledTrains, scheduledTrainsTry.
  destruct (fetchGTFSData env gtfsCache) as [loaded cache'] eqn:Hf. cbn [fst snd].
  split; [|split].
  - intros [-> | Htrips]; [reflexivity|].
    rewrite Htrips. now rewrite orb_true_r.
  - intros Hst.
    destruct (negb loaded || (length (trips cache') =? 0)%nat); [reflexivity|].
    unfold resolveTrains.
    destruct Hst as [-> | Hd]; [reflexivity|]. rewrite Hd.
    now destruct (getStationById o).
  - intros Hnone.
    destruct (negb loaded || (length (trips cache') =? 0)%nat); [reflexivity|].
    unfold resolveTrains. rewrite Hnone.
    destruct (getStationById o); [|reflexivity].
    now destruct (getStationById d).
Qed.

Lemma empty_on_unrecoverable_witness :
  fst (fetchGTFSData Sample.offline Sample.emptyCache) = false
  /\ fst (getScheduledTrains Sample.stations Sample.getStationById Sample.offline
            Sample.emptyCache "sf" "sj" (Some Sample.tuesday0700) [] ∅) = Normal []
  /\ Sample.getStationById "oakland" = None
  /\ fst (getScheduledTrains Sample.stations Sample.getStationById Sample.env
            Sample.emptyCache "oakland" "sj" (Some Sample.tuesday0700) [] ∅) = Normal []
  /\ getActiveServiceId Sample.july4 (calendar Sample.cache) [Sample.weekdayRemoved] = None.
Proof.
  assert (Hoff : fst (fetchGTFSData Sample.offline Sample.emptyCache) = false)
    by reflexivity.
  assert (Hst : Sample.getStationById "oakland" = None) by reflexivity.
  split; [exact Hoff|]. split.
  - exact (proj1 (proj2 (empty_on_unrecoverable Sample.stations Sample.getStationById
                           Sample.offline Sample.emptyCache "sf" "sj"
                           Sample.tuesday0700 [] ∅)) (or_introl Hoff)).
  - split; [exact Hst|]. split; [|vm_compute; reflexivity].
    exact (proj1 (proj2 (proj2 (empty_on_unrecoverable Sample.stations
                                  Sample.getStationById Sample.env Sample.emptyCache
                                  "oakland" "sj" Sample.tuesday0700 [] ∅)))
             (or_introl Hst)).
Defined.

(** A stop time without seconds makes the round throw; the loop is left
    and the caller still receives the empty list. *)
Example malformed_stop_time_gives_empty :
  let broken :=
    {| stopTimes := [Sample.row "T101" "08:00" "08:00" "70012" 1; Sample.sjArrival];
       trips := [Sample.t101]; calendar := [Sample.weekdays]; calendarDates := [];
       lastFetch := Some (now Sample.env) |} in
  processTrip (stopTimes broken) Sample.tuesday0700 [] ∅ false "1" "70012" "70262"
    [] Sample.t101 = Thrown
  /\ fst (getScheduledTrains Sample.stations Sample.getStationById Sample.env broken
            "sf" "sj" (Some Sample.tuesday0700) [] ∅) = Normal [].
Proof. vm_compute. auto. Qed.

(** C10. For every train of the result, [departureTime] and [arrivalTime]
    are the scheduled instants of its trip between the two stops, and
    [duration] is their difference in minutes (rounded to the nearest
    minute), whatever the feed and the scraped map hold: with any other
    feed and scraped map the round of that trip pushes the very same record
    or skips the trip. *)
Theorem output_fields_are_scheduled stations getStationById env gtfsCache o d date
    tripUpdates caltrainAlerts l t :
  fst (getScheduledTrains stations getStationById env gtfsCache o d (Some date)
         tripUpdates caltrainAlerts) = Normal l ->
  In t l ->
  exists originStation destinationStation trip originStop destStop dep arr,
    let gtfsCache' := snd (fetchGTFSData env gtfsCache) in
    let dir := directionIdOf stations o d in
    let originStopId := findGTFSStopId (code originStation) dir in
    let destStopId := findGTFSStopId (code destinationStation) dir in
    getStationById o = Some originStation
    /\ getStationById d = Some destinationStation
    /\ In trip (trips gtfsCache')
    /\ trip_id trip = train_tripId t
    /\ find (atStop trip originStopId) (stopTimes gtfsCache') = Some originStop
    /\ find (atStop trip destStopId) (stopTimes gtfsCache') = Some destStop
    /\ scheduledTimes date originStop destStop = Normal (Some dep, Some arr)
    /\ departureTime t = dep
    /\ arrivalTime t = arr
    /\ duration t = round_div (arr - dep) 60000
    /\ 120000 * duration t <= 2 * (arr - dep) + 60000 < 120000 * duration t + 120000
    /\ (forall tripUpdates' caltrainAlerts' trains',
          let round :=
            processTrip (stopTimes gtfsCache') date tripUpdates' caltrainAlerts'
              (northbound stations o d) dir originStopId destStopId trains' trip in
          round = Normal (Push t) \/ round = Normal Continue).
Proof.
  intros Hres Hin.
  destruct (getScheduledTrains_pushed _ _ _ _ _ _ _ _ _ _ _ Hres Hin)
    as [os [ds [trip [before [Hos [Hds [Htrip Hpush]]]]]]].
  apply processTrip_push in Hpush.
  destruct Hpush as [originStop [destStop [dep [arr [Hdir [Ho [Hd [Hs [_ Ht]]]]]]]]].
  exists os, ds, trip, originStop, destStop, dep, arr. cbv zeta.
  repeat (split; [first [assumption | subst t; reflexivity]|]).
  split.
  - subst t. cbn [duration trainRecord].
    pose proof (round_div_nearest (arr - dep) 60000 ltac:(lia)). lia.
  - intros tu' al' trains'.
    rewrite (processTrip_valid _ _ tu' al' _ _ _ _ trains' _ _ _ _ _ Hdir Ho Hd Hs).
    cbv zeta. subst t.
    destruct (included date _ _ _); [now left | now right].
Qed.

Lemma output_fields_are_scheduled_witness :
  exists t,
    fst (getScheduledTrains Sample.stations Sample.getStationById Sample.env
           Sample.emptyCache "sf" "sj" (Some Sample.tuesday0815) [Sample.late13] ∅)
      = Normal [t]
    /\ scheduledTimes Sample.tuesday0815 Sample.sfDeparture Sample.sjArrival
       = Normal (Some (departureTime t), Some (arrivalTime t))
    /\ duration t = 45.
Proof.
  exists (trainRecord (stopTimes Sample.cache) false Sample.t101
            1717513200000 1717515900000).
  assert (Hres : fst (getScheduledTrains Sample.stations Sample.getStationById
                        Sample.env Sample.emptyCache "sf" "sj" (Some Sample.tuesday0815)
                        [Sample.late13] ∅)
                 = Normal [trainRecord (stopTimes Sample.cache) false Sample.t101
                             1717513200000 1717515900000])
    by (vm_compute; reflexivity).
  split; [exact Hres|].
  destruct (output_fields_are_scheduled _ _ _ _ _ _ _ _ _ _ _ Hres (or_introl eq_refl))
    as [os [ds [trip [originStop [destStop [dep [arr H]]]]]]].
  cbv zeta in H.
  destruct H as [_ [_ [_ [_ [_ [_ [_ [Hdep [Harr [Hdur _]]]]]]]]]].
  split; [vm_compute; reflexivity|].
  rewrite Hdur, <- Hdep, <- Harr. vm_compute. reflexivity.
Defined.

(** ** The scenario of the specification

    One local trip of 22 stops leaving at 08:00 and arriving at 08:45 on the
    weekday service, queried at 07:00 on a Tuesday with no real-time data:
    one train, Local, leaving at 08:00 Pacific time, 45 minutes long. *)
Example end_to_end_scenario :
  fst (getScheduledTrains Sample.stations Sample.getStationById Sample.env
         Sample.emptyCache "sf" "sj" (Some Sample.tuesday0700) [] ∅)
  = Normal
      [ {| trainNumber := "101";
           train_tripId := "T101";
           direction := Southbound;
           departureTime := instantAt (days_from_civil 2024 6 4) 8 0 0 (-7);
           arrivalTime := instantAt (days_from_civil 2024 6 4) 8 45 0 (-7);
           duration := 45;
           type := Local |} ].
Proof. vm_compute. reflexivity. Qed.

(** A feed delay of 13 minutes and no scraped entry: the actual departure is
    the scheduled one plus 13 minutes, and [hasDelay] is true. *)
Example thirteen_minutes_late :
  let over := delayOverlay [Sample.late13] ∅ Sample.t101
                (Some 1717513200000) (Some 1717515900000) in
  over = (Some (1717513200000 + 13 * 60000), Some (1717515900000 + 13 * 60000))
  /\ hasDelay (fst over) (Some 1717513200000) = true.
Proof. vm_compute. auto. Qed.

(** The boundary values of the classification. *)
Example classification_boundaries :
  trainTypeOf 20 = Local /\ trainTypeOf 19 = Limited /\ trainTypeOf 13 = Limited
  /\ trainTypeOf 12 = Express.
Proof. vm_compute. auto. Qed.

(** Seven trains in the timetable, queried at 07:00: the 06:30 train has
    left, the next five are returned in order of departure, the sixth is
    cut. *)
Example rush_hour_five_in_order :
  match fst (getScheduledTrains Sample.stations Sample.getStationById Sample.rushEnv
               Sample.emptyCache "sj" "sf" (Some Sample.tuesday0700) [] ∅) with
  | Normal l => Some (map trainNumber l)
  | Thrown => None
  end = Some ["404"; "406"; "408"; "410"; "412"]%string.
Proof. vm_compute. reflexivity. Qed.

(** The civil calendar on the dates of the sample data. *)
Example calendar_checks :
  civil_from_days 0 = (1970, 1, 1)
  /\ civil_from_days (days_from_civil 2024 2 29) = (2024, 2, 29)
  /\ weekday (days_from_civil 2024 6 4) = 2
  /\ civil_from_days (sunday_from (days_from_civil 2024 3 8)) = (2024, 3, 10)
  /\ civil_from_days (sunday_from (days_from_civil 2024 11 1)) = (2024, 11, 3)
  /\ dateStr (getPacificTimeInfo Sample.tuesday0700) = "20240604"%string
  /\ dayOfWeek (getPacificTimeInfo Sample.tuesday0700) = 2.
Proof. vm_compute. repeat split. Qed.

(** ** Further properties: calendar resolution *)

Lemma scanCalendar_some dow ds cds cals sid :
  scanCalendar dow ds cds cals = Some sid ->
  exists cal,
    In cal cals /\ cal_service_id cal = sid
    /\ dayFlag cal dow = Some "1"%string
    /\ find (isRemoved ds sid) cds = None
    /\ JS.lt (parseInt ds) (parseInt (start_date cal)) = false
    /\ JS.gt (parseInt ds) (parseInt (end_date cal)) = false.
Proof.
  induction cals as [|cal rest IH]; simpl; [discriminate|].
  intros H.
  assert (Hrest : scanCalendar dow ds cds rest = Some sid ->
                  exists cal0, In cal0 (cal :: rest) /\ cal_service_id cal0 = sid
                    /\ dayFlag cal0 dow = Some "1"%string
                    /\ find (isRemoved ds sid) cds = None
                    /\ JS.lt (parseInt ds) (parseInt (start_date cal0)) = false
                    /\ JS.gt (parseInt ds) (parseInt (end_date cal0)) = false).
  { intros Hr. destruct (IH Hr) as [c [Hin Hc]]. exists c. split; [now right | exact Hc]. }
  destruct (JS.lt (parseInt ds) (parseInt (start_date cal))) eqn:Hlt; [auto|].
  destruct (JS.gt (parseInt ds) (parseInt (end_date cal))) eqn:Hgt; [auto|].
  simpl in H.
  destruct (find (isRemoved ds (cal_service_id cal)) cds) eqn:Hfind; [auto|].
  destruct (dayFlag cal dow) as [flag|] eqn:Hflag; [|auto].
  destruct (String.eqb_spec flag "1"); [|auto].
  inversion H; subst. exists cal. repeat split; auto; try (now left).
Qed.

(** X1. Whatever service [getActiveServiceId] returns comes from the
    dataset: it is the service of an added exception dated that day, or of a
    calendar of the list whose flag for that weekday is 1, which has no
    removed exception that day, and whose range the date is neither before
    nor after (as far as the bounds read as numbers); the weekly pattern is
    consulted only when no added exception is dated that day. *)
Theorem active_service_provenance date calendar calendarDates sid :
  getActiveServiceId date calendar calendarDates = Some sid ->
  let info := getPacificTimeInfo date in
  (exists cd, In cd calendarDates /\ addedOn (dateStr info) cd /\ cd_service_id cd = sid)
  \/ (exists cal,
        In cal calendar /\ cal_service_id cal = sid
        /\ dayFlag cal (dayOfWeek info) = Some "1"%string
        /\ ~ (exists cd, In cd calendarDates /\ removedOn (dateStr info) sid cd)
        /\ ~ (exists cd, In cd calendarDates /\ addedOn (dateStr info) cd)
        /\ JS.lt (parseInt (dateStr info)) (parseInt (start_date cal)) = false
        /\ JS.gt (parseInt (dateStr info)) (parseInt (end_date cal)) = false).
Proof.
  intros H info. unfold getActiveServiceId in H. fold info in H.
  destruct (find (isAdded (dateStr info)) calendarDates) as [cd|] eqn:Hadd.
  - left. apply find_some in Hadd. destruct Hadd as [Hin Hcd].
    exists cd. rewrite isAdded_true in Hcd. inversion H. auto.
  - right. apply scanCalendar_some in H.
    destruct H as [cal [Hin [Hid [Hflag [Hrem [Hlo Hhi]]]]]].
    exists cal. repeat split; auto.
    + intros [cd [Hcd Hr]]. apply isRemoved_true in Hr.
      pose proof (find_none _ _ Hrem cd Hcd). congruence.
    + intros [cd [Hcd Ha]]. apply isAdded_true in Ha.
      pose proof (find_none _ _ Hadd cd Hcd). congruence.
Qed.

Lemma active_service_provenance_witness :
  getActiveServiceId Sample.tuesday0700 [Sample.weekdays; Sample.saturdays]
    [Sample.holidayAdded; Sample.weekdayRemoved] = Some "WKDY"%string
  /\ exists cal, In cal [Sample.weekdays; Sample.saturdays]
                 /\ cal_service_id cal = "WKDY"%string.
Proof.
  assert (H : getActiveServiceId Sample.tuesday0700 [Sample.weekdays; Sample.saturdays]
                [Sample.holidayAdded; Sample.weekdayRemoved] = Some "WKDY"%string)
    by (vm_compute; reflexivity).
  split; [exact H|].
  destruct (active_service_provenance _ _ _ _ H) as [[cd [Hin [[Hd _] _]]] | [cal Hcal]].
  - exfalso. simpl in Hin.
    destruct Hin as [<- | [<- | []]]; vm_compute in Hd; discriminate.
  - exists cal. tauto.
Defined.

(** X2. A calendar whose start and end dates do not read as numbers (the
    empty strings a short row leaves, for one) has an open range: when it
    is the first calendar, its weekday flag is set, it is not removed and no
    exception is added that day, it is the active service of every date. *)
Theorem unreadable_range_is_open date cal rest calendarDates :
  parseInt (start_date cal) = None ->
  parseInt (end_date cal) = None ->
  let info := getPacificTimeInfo date in
  dayFlag cal (dayOfWeek info) = Some "1"%string ->
  (forall cd, In cd calendarDates -> exception_type cd = "1"%string \/
                                     exception_type cd = "2"%string ->
              cd_date cd <> dateStr info) ->
  getActiveServiceId date (cal :: rest) calendarDates = Some (cal_service_id cal).
Proof.
  intros Hs He info Hflag Hnone. unfold getActiveServiceId. fold info.
  assert (Hadd : find (isAdded (dateStr info)) calendarDates = None).
  { apply find_None_iff. intros [cd [Hin Hcd]]. apply isAdded_true in Hcd.
    destruct Hcd as [Hd Ht]. apply (Hnone cd Hin); auto. }
  assert (Hrem : find (isRemoved (dateStr info) (cal_service_id cal)) calendarDates = None).
  { apply find_None_iff. intros [cd [Hin Hcd]]. apply isRemoved_true in Hcd.
    destruct Hcd as [Hd [_ Ht]]. apply (Hnone cd Hin); auto. }
  rewrite Hadd. cbn [scanCalendar]. rewrite Hs, He.
  unfold JS.gt, JS.lt. destruct (parseInt (dateStr info)); cbv beta iota;
    cbn [orb]; rewrite Hrem, Hflag; reflexivity.
Qed.

Lemma unreadable_range_is_open_witness :
  getActiveServiceId Sample.tuesday0700 [Sample.undated; Sample.weekdays]
    [Sample.holidayAdded] = Some "ANY"%string.
Proof.
  refine (unreadable_range_is_open Sample.tuesday0700 Sample.undated
            [Sample.weekdays] [Sample.holidayAdded] eq_refl eq_refl _ _).
  - vm_compute. reflexivity.
  - intros cd [<- | []] _. vm_compute. discriminate.
Defined.

Lemma find_filter_implied {A} (p q : A -> bool) (l : list A) :
  (forall x, p x = true -> q x = true) ->
  find p (List.filter q l) = find p l.
Proof.
  intros Himp. induction l as [|x rest IH]; simpl; [reflexivity|].
  destruct (q x) eqn:Hq; simpl.
  - now rewrite IH.
  - destruct (p x) eqn:Hp; [|exact IH].
    rewrite (Himp x Hp) in Hq. discriminate.
Qed.

(** X3. Only the exceptions dated the query's Pacific day count: dropping
    every exception of another date from the list leaves the active service
    unchanged. *)
Theorem exceptions_of_other_days_ignored date calendar calendarDates :
  getActiveServiceId date calendar
    (List.filter (fun cd => String.eqb (cd_date cd) (dateStr (getPacificTimeInfo date)))
       calendarDates)
  = getActiveServiceId date calendar calendarDates.
Proof.
  unfold getActiveServiceId. set (ds := dateStr (getPacificTimeInfo date)).
  set (dow := dayOfWeek (getPacificTimeInfo date)).
  rewrite find_filter_implied
    by (intros cd H; unfold isAdded in H; apply andb_true_iff in H; tauto).
  destruct (find (isAdded ds) calendarDates); [reflexivity|].
  induction calendar as [|cal rest IH]; simpl; [reflexivity|].
  rewrite find_filter_implied
    by (intros cd H; unfold isRemoved in H; rewrite !andb_true_iff in H; tauto).
  now rewrite IH.
Qed.

(** ** Further properties: stop identifiers *)

Lemma append_inj_r (s a b : string) : (s +:+ a = s +:+ b)%string -> a = b.
Proof.
  induction s as [|c s IH]; simpl; [auto|]. intros H. inversion H. auto.
Qed.

Lemma upper_char_idem c : upper_char (upper_char c) = upper_char c.
Proof. destruct c as [[] [] [] [] [] [] [] []]; reflexivity. Qed.

Lemma upper_lower_char c : upper_char (lower_char c) = upper_char c.
Proof. destruct c as [[] [] [] [] [] [] [] []]; reflexivity. Qed.

Lemma lower_upper_char c : lower_char (upper_char c) = lower_char c.
Proof. destruct c as [[] [] [] [] [] [] [] []]; reflexivity. Qed.

Lemma toUpperCase_idem s : toUpperCase (toUpperCase s) = toUpperCase s.
Proof. induction s as [|c s IH]; simpl; [reflexivity|]. now rewrite upper_char_idem, IH. Qed.

Lemma toUpperCase_lower s : toUpperCase (toLowerCase s) = toUpperCase s.
Proof. induction s as [|c s IH]; simpl; [reflexivity|]. now rewrite upper_lower_char, IH. Qed.

Lemma toLowerCase_upper s : toLowerCase (toUpperCase s) = toLowerCase s.
Proof. induction s as [|c s IH]; simpl; [reflexivity|]. now rewrite lower_upper_char, IH. Qed.

(** X4. For every station code, mapped or not, the stop identifier of
    direction 0 differs from the one of any other direction, and every
    direction other than 0 gives the identifier of direction 1. *)
Theorem stop_ids_split_by_direction stationCode directionId :
  directionId <> "0"%string ->
  findGTFSStopId stationCode directionId = findGTFSStopId stationCode "1"
  /\ findGTFSStopId stationCode "0" <> findGTFSStopId stationCode directionId.
Proof.
  intros Hd. unfold findGTFSStopId, directionSuffix.
  destruct (String.eqb_spec directionId "0") as [|_]; [contradiction|].
  change (String.eqb "1" "0") with false. change (String.eqb "0" "0") with true.
  split; [reflexivity|].
  destruct (codeMapping !! toUpperCase stationCode) as [baseCode|].
  - destruct (String.eqb baseCode "253774"); [discriminate|].
    intros H. apply append_inj_r in H. discriminate.
  - intros H. apply append_inj_r in H. discriminate.
Qed.

Lemma stop_ids_split_by_direction_witness :
  findGTFSStopId "sf" "south" = "70012"%string
  /\ findGTFSStopId "sf" "0" <> findGTFSStopId "sf" "south".
Proof.
  destruct (stop_ids_split_by_direction "sf" "south" ltac:(discriminate)) as [H1 H2].
  split; [rewrite H1; vm_compute; reflexivity | exact H2].
Defined.

(** X5. The lookup of a mapped station code does not depend on the case of
    its letters: the upper-case and the lower-case spelling of a code that
    is in the table give the stop identifier of the code as written. *)
Theorem stop_id_lookup_ignores_case stationCode directionId :
  is_Some (codeMapping !! toUpperCase stationCode) ->
  findGTFSStopId (toUpperCase stationCode) directionId
    = findGTFSStopId stationCode directionId
  /\ findGTFSStopId (toLowerCase stationCode) directionId
    = findGTFSStopId stationCode directionId.
Proof.
  intros [baseCode Hb]. unfold findGTFSStopId.
  now rewrite toUpperCase_idem, toUpperCase_lower, Hb.
Qed.

Lemma stop_id_lookup_ignores_case_witness :
  findGTFSStopId "PALO ALTO" "0" = findGTFSStopId "Palo Alto" "0"
  /\ findGTFSStopId "palo alto" "0" = findGTFSStopId "Palo Alto" "0"
  /\ findGTFSStopId "Palo Alto" "0" = "70171"%string.
Proof.
  destruct (stop_id_lookup_ignores_case "Palo Alto" "0") as [H1 H2].
  - vm_compute. eauto.
  - split; [exact H1|]. split; [exact H2|]. vm_compute. reflexivity.
Defined.

(** ** Further properties: real-time delays *)

(** X6. The first update carrying the trip's identifier ends the search:
    when it has no stop-time update the trip has no delay information,
    whatever updates follow it in the feed and whatever train number is
    passed for the fallback; the overlay then takes the scraped delay of
    the train's short name, or leaves the scheduled instants as they are. *)
Theorem empty_update_ends_search updates trip update trainNumber' caltrainAlerts dep arr :
  feedMatch updates trip = Some update ->
  stopTimeUpdates update = [] ->
  getTripDelay updates (trip_id trip) trainNumber' = None
  /\ delayOverlay updates caltrainAlerts trip (Some dep) (Some arr)
     = match caltrainAlerts !! trip_short_name trip with
       | Some alertDelay =>
           (Some (dep + delayMinutes alertDelay * 60 * 1000),
            Some (arr + delayMinutes alertDelay * 60 * 1000))
       | None => (Some dep, Some arr)
       end.
Proof.
  intros Hmatch Hempty.
  assert (Hnone : forall tn, getTripDelay updates (trip_id trip) tn = None).
  { intros tn. rewrite (getTripDelay_match _ _ _ _ Hmatch).
    unfold calculateTripDelay. now rewrite Hempty. }
  split; [apply Hnone|].
  unfold delayOverlay. rewrite Hnone.
  set (fromFeed := if (0 <? length updates)%nat then _ else _).
  assert (Hfrom : fromFeed = (Some dep, Some arr))
    by (subst fromFeed; now destruct (0 <? length updates)%nat).
  rewrite Hfrom. cbn [fst]. rewrite same_refl. cbn [andb].
  destruct (caltrainAlerts !! trip_short_name trip) as [a|] eqn:Ha.
  - now rewrite (lookup_size_pos _ _ _ Ha).
  - now destruct (0 <? size caltrainAlerts)%nat.
Qed.

Lemma empty_update_ends_search_witness :
  getTripDelay [Sample.update "T101" []; Sample.late13] (trip_id Sample.t101)
    (Some "101"%string) = None
  /\ delayOverlay [Sample.update "T101" []; Sample.late13] Sample.scraped5 Sample.t101
       (Some 1717513200000) (Some 1717515900000)
     = (Some (1717513200000 + 5 * 60 * 1000), Some (1717515900000 + 5 * 60 * 1000)).
Proof.
  exact (empty_update_ends_search [Sample.update "T101" []; Sample.late13]
           Sample.t101 (Sample.update "T101" []) (Some "101"%string)
           Sample.scraped5 1717513200000 1717515900000 eq_refl eq_refl).
Defined.

Lemma delayLoop_flag stops m0 :
  snd (delayLoop stops m0) = false ->
  forall stop, In stop stops -> isSkippedOrCanceled stop = false.
Proof.
  intros Hflag stop Hin.
  destruct (isSkippedOrCanceled stop) eqn:Hs; [|reflexivity].
  rewrite delayLoop_cancelled in Hflag; [discriminate | eauto].
Qed.

(** X7. For a trip that is not cancelled, the status of the computed delay
    follows the largest per-stop delay [m] in seconds: it is delayed exactly
    when the trip is at least 30 seconds late or more than 30 seconds early,
    and on time exactly when [-30 <= m < 30]; the delay in minutes is zero
    exactly when the status is on time. *)
Theorem delayed_from_thirty_seconds update info :
  calculateTripDelay update = Some info ->
  info_status info <> Cancelled ->
  exists m,
    isMaxMagnitudeDelay (stopTimeUpdates update) m
    /\ info_delay info = round_div m 60
    /\ (info_status info = Delayed <-> 30 <= m \/ m < -30)
    /\ (info_status info = OnTime <-> -30 <= m < 30)
    /\ (info_status info = OnTime <-> info_delay info = 0).
Proof.
  intros Hcalc Hstatus.
  assert (Hne : stopTimeUpdates update <> []).
  { intros E. unfold calculateTripDelay in Hcalc. rewrite E in Hcalc. discriminate. }
  assert (Hrun : notCancelled update).
  { unfold notCancelled. apply (delayLoop_flag (stopTimeUpdates update) 0).
    unfold calculateTripDelay in Hcalc.
    destruct (stopTimeUpdates update) as [|s0 rest]; [congruence|].
    destruct (delayLoop (s0 :: rest) 0) as [m c]. destruct c; [|reflexivity].
    inversion Hcalc; subst info. simpl in Hstatus. congruence. }
  destruct (calculateTripDelay_running update Hne Hrun) as [m [Hmax Hres]].
  rewrite Hres in Hcalc. inversion Hcalc; subst info. clear Hcalc.
  exists m. split; [exact Hmax|]. split; [reflexivity|].
  cbn [info_status info_delay].
  pose proof (round_div_nearest m 60 ltac:(lia)) as Hr.
  destruct (Z.leb_spec 1 (Z.abs (round_div m 60))) as [Hd | Hd].
  - repeat split; try discriminate; try lia; intros; exfalso; lia.
  - repeat split; try discriminate; try lia; intros [?|?]; exfalso; lia.
Qed.

Lemma delayed_from_thirty_seconds_witness :
  let late30 := Sample.update "T101" [Sample.stopUpdate "70012" 1 None (Some 30) None] in
  calculateTripDelay late30 = Some {| info_delay := 1; info_status := Delayed |}
  /\ exists m, isMaxMagnitudeDelay (stopTimeUpdates late30) m /\ (30 <= m \/ m < -30).
Proof.
  cbv zeta.
  assert (H : calculateTripDelay
                (Sample.update "T101" [Sample.stopUpdate "70012" 1 None (Some 30) None])
              = Some {| info_delay := 1; info_status := Delayed |})
    by (vm_compute; reflexivity).
  split; [exact H|].
  destruct (delayed_from_thirty_seconds _ _ H ltac:(discriminate))
    as [m [Hmax [_ [Hdelayed _]]]].
  exists m. split; [exact Hmax|]. apply Hdelayed. reflexivity.
Defined.

Lemma delayLoop_until_cancelled pre c post m0 :
  (forall stop, In stop pre -> isSkippedOrCanceled stop = false) ->
  isSkippedOrCanceled c = true ->
  delayLoop (pre ++ c :: post) m0 = (fst (delayLoop pre m0), true).
Proof.
  revert m0. induction pre as [|s pre IH]; intros m0 Hpre Hc; simpl.
  - now rewrite Hc.
  - rewrite (Hpre s) by now left. apply IH; [|exact Hc].
    intros x Hx. apply Hpre. now right.
Qed.

(** X8. The loop over the stops of an update stops at the first skipped or
    cancelled stop: the trip is cancelled and the delay reported with it is
    the largest one among the stops before that stop (zero when there is
    none); the delay of the cancelled stop itself and the stops after it
    are not looked at. *)
Theorem delays_after_cancellation_ignored update pre c post :
  stopTimeUpdates update = pre ++ c :: post ->
  (forall stop, In stop pre -> isSkippedOrCanceled stop = false) ->
  isSkippedOrCanceled c = true ->
  exists m,
    (m = 0 \/ exists stop, In stop pre /\ stopDelay stop = m)
    /\ (forall stop, In stop pre -> Z.abs (stopDelay stop) <= Z.abs m)
    /\ calculateTripDelay update
       = Some {| info_delay := round_div m 60; info_status := Cancelled |}.
Proof.
  intros Hstops Hpre Hc.
  destruct (delayLoop_running pre 0 Hpre) as [m [Hloop [_ [Hall Hsrc]]]].
  exists m. split; [exact Hsrc|]. split; [exact Hall|].
  unfold calculateTripDelay. rewrite Hstops.
  rewrite (delayLoop_until_cancelled pre c post 0 Hpre Hc), Hloop.
  cbn [fst]. now destruct pre.
Qed.

Lemma delays_after_cancellation_ignored_witness :
  calculateTripDelay
    (Sample.update "T101"
       [Sample.stopUpdate "70012" 1 None (Some 120) None;
        Sample.stopUpdate "70112" 8 (Some 900) None (Some "CANCELED"%string);
        Sample.stopUpdate "70262" 22 (Some 3600) None None])
  = Some {| info_delay := 2; info_status := Cancelled |}.
Proof.
  destruct (delays_after_cancellation_ignored
              (Sample.update "T101"
                 [Sample.stopUpdate "70012" 1 None (Some 120) None;
                  Sample.stopUpdate "70112" 8 (Some 900) None (Some "CANCELED"%string);
                  Sample.stopUpdate "70262" 22 (Some 3600) None None])
              [Sample.stopUpdate "70012" 1 None (Some 120) None]
              (Sample.stopUpdate "70112" 8 (Some 900) None (Some "CANCELED"%string))
              [Sample.stopUpdate "70262" 22 (Some 3600) None None])
    as [m [Hsrc [_ Hres]]].
  - reflexivity.
  - intros stop [<- | []]. reflexivity.
  - reflexivity.
  - rewrite Hres. destruct Hsrc as [-> | [stop [[<- | []] <-]]]; [|reflexivity].
    vm_compute in Hres. discriminate.
Defined.

Lemma string_length_append (p s : string) :
  String.length (p +:+ s) = (String.length p + String.length s)%nat.
Proof. induction p as [|c p IH]; simpl; [reflexivity | now rewrite IH]. Qed.

Lemma substring_whole s : substring 0 (String.length s) s = s.
Proof. induction s as [|c s IH]; simpl; [reflexivity | now rewrite IH]. Qed.

Lemma substring_after p s :
  substring (String.length p) (String.length s) (p +:+ s) = s.
Proof. induction p as [|c p IH]; simpl; [apply substring_whole | exact IH]. Qed.

Lemma substring_split s a :
  (a <= String.length s)%nat ->
  s = (substring 0 a s +:+ substring a (String.length s - a) s)%string.
Proof.
  revert a. induction s as [|c s IH]; intros a Ha; simpl in *.
  - destruct a; [reflexivity | lia].
  - destruct a as [|a]; simpl.
    + now rewrite substring_whole.
    + change (String c s = String c (substring 0 a s
                                      +:+ substring a (String.length s - a) s)%string).
      f_equal. apply IH. lia.
Qed.

Lemma endsWith_suffix s suffix :
  endsWith s suffix = true <-> exists p, s = (p +:+ suffix)%string.
Proof.
  unfold endsWith. rewrite andb_true_iff, Nat.leb_le, String.eqb_eq. split.
  - intros [Hle Hsub].
    exists (substring 0 (String.length s - String.length suffix) s).
    pose proof (substring_split s (String.length s - String.length suffix)
                  ltac:(lia)) as Hsplit.
    replace (String.length s - (String.length s - String.length suffix))%nat
      with (String.length suffix) in Hsplit by lia.
    now rewrite Hsub in Hsplit.
  - intros [p ->]. rewrite string_length_append. split; [lia|].
    replace (String.length p + String.length suffix - String.length suffix)%nat
      with (String.length p) by lia.
    apply substring_after.
Qed.

Lemma find_first {A} (p : A -> bool) pre x post :
  (forall y, In y pre -> p y = false) -> p x = true ->
  find p (pre ++ x :: post) = Some x.
Proof.
  intros Hpre Hx. induction pre as [|y pre IH]; simpl.
  - now rewrite Hx.
  - rewrite (Hpre y) by now left. apply IH. intros z Hz. apply Hpre. now right.
Qed.

Lemma find_all_false {A} (p : A -> bool) l :
  (forall y, In y l -> p y = false) -> find p l = None.
Proof.
  intros H. apply find_None_iff. intros [x [Hin Hp]]. rewrite (H x Hin) in Hp.
  discriminate.
Qed.

(** X9. When no update carries the trip's identifier, [getTripDelay] falls
    back on the train number: the first update whose [tripId] is the train
    number, or ends with a dash and the train number, gives the delay; no
    such update, no train number or an empty one gives none. *)
Theorem train_number_fallback updates tid tn :
  tn <> ""%string ->
  (forall u, In u updates -> tripId u <> tid) ->
  (forall pre u post,
      updates = pre ++ u :: post ->
      (tripId u = tn \/ exists p, tripId u = (p +:+ "-" +:+ tn)%string) ->
      (forall x, In x pre ->
                 tripId x <> tn /\ forall p, tripId x <> (p +:+ "-" +:+ tn)%string) ->
      getTripDelay updates tid (Some tn) = calculateTripDelay u)
  /\ ((forall x, In x updates ->
                 tripId x <> tn /\ forall p, tripId x <> (p +:+ "-" +:+ tn)%string) ->
      getTripDelay updates tid (Some tn) = None)
  /\ getTripDelay updates tid None = None
  /\ getTripDelay updates tid (Some ""%string) = None.
Proof.
  intros Htn Hexact.
  assert (Hfind : find (fun update => String.eqb (tripId update) tid) updates = None).
  { apply find_all_false. intros u Hu. apply String.eqb_neq. now apply Hexact. }
  assert (Hfalse : forall x,
             (tripId x <> tn /\ forall p, tripId x <> (p +:+ "-" +:+ tn)%string) ->
             String.eqb (tripId x) tn || endsWith (tripId x) ("-" +:+ tn) = false).
  { intros x [Hne Hsuf]. apply orb_false_iff. split; [now apply String.eqb_neq|].
    destruct (endsWith (tripId x) ("-" +:+ tn)) eqn:E; [|reflexivity].
    apply endsWith_suffix in E. destruct E as [p Hp]. now apply Hsuf in Hp. }
  unfold getTripDelay. rewrite Hfind.
  destruct (String.eqb_spec tn "") as [|_]; [contradiction|].
  repeat split.
  - intros pre u post -> Hu Hpre. rewrite (find_first _ pre u post); [reflexivity | |].
    + intros x Hx. apply Hfalse. now apply Hpre.
    + apply orb_true_iff. destruct Hu as [-> | Hsuf].
      * left. apply String.eqb_refl.
      * right. now apply endsWith_suffix.
  - intros Hnone. rewrite find_all_false; [reflexivity|].
    intros x Hx. apply Hfalse. now apply Hnone.
Qed.

Lemma train_number_fallback_witness :
  getTripDelay [Sample.update "X-7" []; Sample.update "2024-101" (stopTimeUpdates Sample.late13)]
    "T101" (Some "101"%string)
  = Some {| info_delay := 13; info_status := Delayed |}.
Proof.
  destruct (train_number_fallback
              [Sample.update "X-7" [];
               Sample.update "2024-101" (stopTimeUpdates Sample.late13)]
              "T101" "101") as [Hfirst _].
  - discriminate.
  - intros u [<- | [<- | []]]; discriminate.
  - rewrite (Hfirst [Sample.update "X-7" []]
               (Sample.update "2024-101" (stopTimeUpdates Sample.late13)) []).
    + vm_compute. reflexivity.
    + reflexivity.
    + right. exists "2024"%string. reflexivity.
    + intros x [<- | []]. split; [discriminate|].
      intros p Hp. apply (f_equal String.length) in Hp.
      rewrite string_length_append in Hp. simpl in Hp. lia.
Defined.

(** X10. On an update with a single stop-time update, the delay at that
    stop and the delay of the trip agree when the stop is not skipped or
    cancelled; when it is, both report the status cancelled, the stop with
    its own delay and the trip with a delay of zero. *)
Theorem single_stop_update_agrees update stu :
  stopTimeUpdates update = [stu] ->
  let atStop := getStopDelay [update] (stopId stu) (Some (tripId update)) in
  let overTrip := calculateTripDelay update in
  (isSkippedOrCanceled stu = false -> atStop = overTrip)
  /\ (isSkippedOrCanceled stu = true ->
      atStop = Some {| info_delay := round_div (stopDelay stu) 60;
                       info_status := Cancelled |}
      /\ overTrip = Some {| info_delay := 0; info_status := Cancelled |}).
Proof.
  intros Hstops atStop overTrip. subst atStop overTrip.
  unfold calculateTripDelay. cbn [getStopDelay]. rewrite Hstops.
  rewrite String.eqb_refl, andb_false_r. cbn [find delayLoop].
  rewrite String.eqb_refl. unfold statusOf.
  split; intros Hs; rewrite Hs.
  - assert (Hmax : (if Z.abs 0 <? Z.abs (stopDelay stu) then stopDelay stu else 0)
                   = stopDelay stu).
    { destruct (Z.ltb_spec (Z.abs 0) (Z.abs (stopDelay stu))); lia. }
    now rewrite Hmax.
  - split; reflexivity.
Qed.

Lemma single_stop_update_agrees_witness :
  getStopDelay [Sample.onTime] "70012" (Some "T101"%string)
  = calculateTripDelay Sample.onTime.
Proof.
  exact (proj1 (single_stop_update_agrees Sample.onTime
                  (Sample.stopUpdate "70012" 1 None (Some 20) None) eq_refl)
           eq_refl).
Defined.

Lemma getStopDelay_any_none updates sid :
  getStopDelay updates sid None = None <->
  forall u, In u updates -> forall stu, In stu (stopTimeUpdates u) -> stopId stu <> sid.
Proof.
  induction updates as [|u rest IH]; simpl.
  - split; [intros _ u [] | reflexivity].
  - destruct (find (fun stu => String.eqb (stopId stu) sid) (stopTimeUpdates u))
      as [stu|] eqn:Hfind.
    + split; [discriminate|]. intros H. apply find_some in Hfind.
      destruct Hfind as [Hin Heq]. apply String.eqb_eq in Heq.
      exfalso. exact (H u (or_introl eq_refl) stu Hin Heq).
    + rewrite IH. split.
      * intros H x [<- | Hx] stu Hstu; [|now apply (H x Hx)].
        apply String.eqb_neq. exact (find_none _ _ Hfind stu Hstu).
      * intros H x Hx. apply H. now right.
Qed.

(** X11. [getStopDelay] finds nothing exactly when no update has a stop-time
    update for the stop; an empty trip identifier searches all trips like an
    absent one; and a trip identifier restricts the search to the updates
    that carry it, in feed order. *)
Theorem stop_delay_search updates sid :
  (getStopDelay updates sid None = None <->
   forall u, In u updates -> forall stu, In stu (stopTimeUpdates u) -> stopId stu <> sid)
  /\ getStopDelay updates sid (Some ""%string) = getStopDelay updates sid None
  /\ (forall tid, tid <> ""%string ->
        getStopDelay updates sid (Some tid)
        = getStopDelay
            (List.filter (fun u => String.eqb (tripId u) tid) updates) sid None).
Proof.
  split; [apply getStopDelay_any_none|]. split.
  - induction updates as [|u rest IH]; simpl; [reflexivity|]. now rewrite IH.
  - intros tid Htid. induction updates as [|u rest IH]; simpl; [reflexivity|].
    destruct (String.eqb_spec tid "") as [|_]; [contradiction|]. simpl.
    destruct (String.eqb (tripId u) tid); simpl; [now rewrite IH | exact IH].
Qed.

(** ** Further properties: reading the tables *)

Lemma fillRow_keys headers index values obj key :
  is_Some (fillRow headers index values obj !! key) <->
  is_Some (obj !! key) \/ (In key headers /\ key <> "__proto__"%string).
Proof.
  revert index obj. induction headers as [|h rest IH]; intros index obj; simpl.
  - tauto.
  - rewrite IH. destruct (String.eqb_spec h "__proto__") as [Hp | Hp].
    + subst h. split; [tauto|]. intros [H | [[<- | H] Hk]]; tauto.
    + destruct (decide (h = key)) as [<- | Hne].
      * rewrite lookup_insert_eq. split; [intros _; right; auto | eauto].
      * rewrite lookup_insert_ne by exact Hne. split; [tauto|].
        intros [H | [[Heq | H] Hk]]; [tauto | contradiction | tauto].
Qed.

Lemma fillRow_other headers index values obj key :
  ~ In key headers ->
  fillRow headers index values obj !! key = obj !! key.
Proof.
  revert index obj. induction headers as [|h rest IH]; intros index obj Hnot; simpl.
  - reflexivity.
  - rewrite IH by (intros H; apply Hnot; now right).
    destruct (String.eqb h "__proto__"); [reflexivity|].
    apply lookup_insert_ne. intros ->. apply Hnot. now left.
Qed.

Lemma fillRow_last pre h post index values obj :
  ~ In h post -> h <> "__proto__"%string ->
  fillRow (pre ++ h :: post) index values obj !! h
  = Some (default ""%string (values !! (index + length pre)%nat)).
Proof.
  intros Hpost Hp. revert index obj.
  induction pre as [|h0 pre IH]; intros index obj; simpl.
  - rewrite fillRow_other by exact Hpost.
    destruct (String.eqb_spec h "__proto__") as [|_]; [contradiction|].
    now rewrite lookup_insert_eq, Nat.add_0_r.
  - rewrite IH. now rewrite Nat.add_succ_r.
Qed.

(** X12. [parseCSV] returns one object per line after the header line (none
    for a text of fewer than two lines), and every object has exactly the
    trimmed header names as its keys, however many cells its line holds;
    the name [__proto__] apart, which is never a key. *)
Theorem parseCSV_shape csvText :
  let lines := split "010" (trim csvText) in
  let headers := map trim (split "," (hd ""%string lines)) in
  length (parseCSV csvText) = (length lines - 1)%nat
  /\ forall row key,
       In row (parseCSV csvText) ->
       (is_Some (row !! key) <-> In key headers /\ key <> "__proto__"%string).
Proof.
  cbv zeta. unfold parseCSV.
  destruct (split "010" (trim csvText)) as [|header [|line more]]; simpl.
  - split; [reflexivity | intros ? ? []].
  - split; [reflexivity | intros ? ? []].
  - split; [rewrite length_map; lia|].
    intros row key Hin.
    assert (Hrow : exists values,
               row = fillRow (map trim (split "," header)) 0 values ∅).
    { destruct Hin as [<- | Hin]; [eauto|].
      apply in_map_iff in Hin. destruct Hin as [l [<- _]]. eauto. }
    destruct Hrow as [values ->]. rewrite fillRow_keys, lookup_empty.
    split; [intros [[x Hx] | H]; [discriminate | exact H] | auto].
Qed.

(** X13. In the object of a data line, the value under a header name is
    the trimmed cell at the position of the last header of that name, and
    the empty string when the line has no cell, or an empty cell, there. *)
Theorem parseCSV_cells csvText header line more j rowLine pre h post :
  split "010" (trim csvText) = header :: line :: more ->
  (line :: more) !! j = Some rowLine ->
  map trim (split "," header) = pre ++ h :: post ->
  ~ In h post -> h <> "__proto__"%string ->
  exists row,
    parseCSV csvText !! j = Some row
    /\ row !! h = Some (default ""%string (map trim (split "," rowLine) !! length pre)).
Proof.
  intros Hlines Hj Hheaders Hpost Hp. unfold parseCSV. rewrite Hlines, Hheaders.
  exists (fillRow (pre ++ h :: post) 0 (map trim (split "," rowLine)) ∅).
  split.
  - rewrite list_lookup_fmap, Hj. reflexivity.
  - now rewrite fillRow_last.
Qed.

Lemma parseCSV_cells_witness :
  let text := ("trip_id, stop_id ,arrival_time" +:+ String "010" "T1, 70012"
               +:+ String "010" "T2,70013,08:05:00,extra")%string in
  exists row,
    parseCSV text !! 0%nat = Some row
    /\ row !! "stop_id"%string = Some "70012"%string
    /\ row !! "arrival_time"%string = Some ""%string.
Proof.
  cbv zeta.
  destruct (parseCSV_cells
              ("trip_id, stop_id ,arrival_time" +:+ String "010" "T1, 70012"
               +:+ String "010" "T2,70013,08:05:00,extra")%string
              "trip_id, stop_id ,arrival_time" "T1, 70012"
              ["T2,70013,08:05:00,extra"%string] 0 "T1, 70012"
              ["trip_id"%string] "stop_id" ["arrival_time"%string])
    as [row [Hrow Hcell]].
  - vm_compute. reflexivity.
  - reflexivity.
  - vm_compute. reflexivity.
  - intros [H | []]. discriminate.
  - discriminate.
  - exists row. split; [exact Hrow|]. split; [rewrite Hcell; vm_compute; reflexivity|].
    assert (Hval : parseCSV
                     ("trip_id, stop_id ,arrival_time" +:+ String "010" "T1, 70012"
                      +:+ String "010" "T2,70013,08:05:00,extra")%string
                   !! 0%nat ≫= (fun r => r !! "arrival_time"%string)
                   = Some ""%string) by (vm_compute; reflexivity).
    rewrite Hrow in Hval. exact Hval.
Defined.

(** ** Further properties: loading the static dataset *)

(** X14. After a fetch that reports success the cache carries a fetch
    time, and every further fetch within 24 hours of that time, whatever
    the key and the sources then are, reports success and leaves the cache
    as it is. *)
Theorem fetch_then_cached env gtfsCache gtfsCache' :
  fetchGTFSData env gtfsCache = (true, gtfsCache') ->
  exists last,
    lastFetch gtfsCache' = Some last
    /\ forall env', now env' - last < 24 * 3600000 ->
                    fetchGTFSData env' gtfsCache' = (true, gtfsCache').
Proof.
  intros Hfetch.
  assert (Hlast : exists last, lastFetch gtfsCache' = Some last).
  { unfold fetchGTFSData, loadLocalGTFSData in Hfetch.
    destruct (cacheValid env gtfsCache) eqn:Hvalid.
    - inversion Hfetch; subst. unfold cacheValid in Hvalid.
      destruct (lastFetch gtfsCache'); [eauto | discriminate].
    - destruct (if apiKey env then remoteTables env else None) as [t|].
      + inversion Hfetch. simpl. eauto.
      + destruct (localTables env) as [t|]; inversion Hfetch. simpl. eauto. }
  destruct Hlast as [last Hlast]. exists last. split; [exact Hlast|].
  intros env' Hnow. unfold fetchGTFSData, cacheValid. rewrite Hlast.
  unfold CACHE_DURATION_HOURS.
  destruct (Z.ltb_spec (now env' - last) (24 * (1000 * 60 * 60))); [reflexivity | lia].
Qed.

Lemma fetch_then_cached_witness :
  fetchGTFSData Sample.offline Sample.cache = (true, Sample.cache).
Proof.
  destruct (fetch_then_cached Sample.env Sample.emptyCache Sample.cache)
    as [last [Hlast Hagain]].
  - reflexivity.
  - apply Hagain. vm_compute in Hlast. inversion Hlast. vm_compute. reflexivity.
Defined.

(** X15. A fetch fails exactly when the cache is absent or older than 24
    hours, the remote source is not used (no key) or fails, and the bundled
    files cannot be read. A failed fetch leaves the cache as it was, stale
    tables included; [getScheduledTrains] then returns the empty list (at
    every valid query date) without consulting those tables. *)
Theorem failed_fetch_keeps_snapshot env gtfsCache :
  (fst (fetchGTFSData env gtfsCache) = false <->
   cacheValid env gtfsCache = false
   /\ (apiKey env = false \/ remoteTables env = None)
   /\ localTables env = None)
  /\ (fst (fetchGTFSData env gtfsCache) = false ->
      snd (fetchGTFSData env gtfsCache) = gtfsCache
      /\ forall stations getStationById o d date tripUpdates caltrainAlerts,
           getScheduledTrains stations getStationById env gtfsCache o d (Some date)
             tripUpdates caltrainAlerts = (Normal [], gtfsCache)).
Proof.
  assert (Hiff : fst (fetchGTFSData env gtfsCache) = false <->
                 cacheValid env gtfsCache = false
                 /\ (apiKey env = false \/ remoteTables env = None)
                 /\ localTables env = None).
  { unfold fetchGTFSData, loadLocalGTFSData.
    destruct (cacheValid env gtfsCache); simpl; [split; [discriminate | tauto]|].
    destruct (apiKey env); simpl.
    - destruct (remoteTables env) as [t|]; simpl.
      + split; [discriminate | intros [_ [[H | H] _]]; discriminate].
      + destruct (localTables env); simpl; split; auto; try discriminate.
        intros [_ [_ H]]. discriminate.
    - destruct (localTables env); simpl; split; auto; try discriminate.
      intros [_ [_ H]]. discriminate. }
  split; [exact Hiff|]. intros Hfail.
  assert (Hsnd : snd (fetchGTFSData env gtfsCache) = gtfsCache).
  { apply Hiff in Hfail. destruct Hfail as [Hvalid [Hremote Hlocal]].
    unfold fetchGTFSData, loadLocalGTFSData. rewrite Hvalid, Hlocal.
    destruct Hremote as [-> | ->]; [reflexivity|]. now destruct (apiKey env). }
  split; [exact Hsnd|]. intros. unfold getScheduledTrains, scheduledTrainsTry.
  destruct (fetchGTFSData env gtfsCache) as [loaded cache']. simpl in *.
  now subst.
Qed.

(** ** Further properties: the returned trains *)

Lemma getScheduledTrains_selected stations getStationById env gtfsCache o d date
    tripUpdates caltrainAlerts l :
  fst (getScheduledTrains stations getStationById env gtfsCache o d (Some date)
         tripUpdates caltrainAlerts) = Normal l ->
  l <> [] ->
  let gtfsCache' := snd (fetchGTFSData env gtfsCache) in
  exists originStation destinationStation serviceId trains,
    getStationById o = Some originStation
    /\ getStationById d = Some destinationStation
    /\ getActiveServiceId date (calendar gtfsCache') (calendarDates gtfsCache')
         = Some serviceId
    /\ tripLoop
         (processTrip (stopTimes gtfsCache') date tripUpdates caltrainAlerts
            (northbound stations o d) (directionIdOf stations o d)
            (findGTFSStopId (code originStation) (directionIdOf stations o d))
            (findGTFSStopId (code destinationStation) (directionIdOf stations o d)))
         (List.filter (fun trip => String.eqb (service_id trip) serviceId)
            (trips gtfsCache')) []
       = Normal trains
    /\ l = take 5 (sortByDeparture trains).
Proof.
  intros Hres Hne gtfsCache'. subst gtfsCache'.
  destruct (getScheduledTrains_result stations getStationById env gtfsCache o d date
              tripUpdates caltrainAlerts) as [l' [Hl' Hcase]].
  rewrite Hres in Hl'. inversion Hl'; subst l'. clear Hl'.
  destruct Hcase as [-> | Hr]; [congruence|].
  destruct (resolveTrains_result stations getStationById
              (snd (fetchGTFSData env gtfsCache)) o d date tripUpdates caltrainAlerts)
    as [l' [Hl' Hcase]].
  rewrite Hr in Hl'. inversion Hl'; subst l'. clear Hl'.
  destruct Hcase as [-> | H]; [congruence | exact H].
Qed.

Lemma tripLoop_member body activeTrips acc trains trip t :
  tripLoop body activeTrips acc = Normal trains ->
  In trip activeTrips ->
  (forall before, body before trip = Normal (Push t)) -> In t trains.
Proof.
  revert acc. induction activeTrips as [|x rest IH]; intros acc Hloop Hin Hpush.
  - destruct Hin.
  - simpl in Hloop. destruct Hin as [-> | Hin].
    + rewrite Hpush in Hloop. apply (tripLoop_keeps _ _ _ _ _ Hloop).
      apply in_or_app. right. now left.
    + destruct (body acc x) as [[|t']|]; [| |discriminate]; now apply (IH _ Hloop).
Qed.

Lemma tripLoop_thrown body activeTrips trains :
  (exists trip, In trip activeTrips /\ forall before, body before trip = Thrown) ->
  tripLoop body activeTrips trains = Thrown.
Proof.
  revert trains. induction activeTrips as [|trip rest IH]; intros trains [x [Hin Hx]].
  - destruct Hin.
  - simpl. destruct (body trains trip) as [[|t]|] eqn:Hb; [| |reflexivity];
      (destruct Hin as [<- | Hin]; [rewrite Hx in Hb; discriminate | apply IH; eauto]).
Qed.

Lemma sorted_app_le (l1 l2 : list Train) a b :
  StronglySorted byDeparture (l1 ++ l2) -> In a l1 -> In b l2 ->
  departureTime a <= departureTime b.
Proof.
  induction l1 as [|x l1 IH]; simpl; intros Hs Ha Hb; [destruct Ha|].
  inversion Hs as [|? ? Hs' Hall]; subst.
  destruct Ha as [<- | Ha]; [|now apply IH].
  rewrite Forall_forall in Hall. apply Hall.
  apply list_elem_of_In, in_or_app. now right.
Qed.

(** X16. Every train of the result is a trip of the dataset that runs on
    the service active on the query's date and in the direction of the
    request; its direction label follows the order of the two stations in
    the station table, and its number is the trip's short name, or the trip
    identifier when the short name is empty. *)
Theorem trains_of_active_service stations getStationById env gtfsCache o d date
    tripUpdates caltrainAlerts l t :
  fst (getScheduledTrains stations getStationById env gtfsCache o d (Some date)
         tripUpdates caltrainAlerts) = Normal l ->
  In t l ->
  let gtfsCache' := snd (fetchGTFSData env gtfsCache) in
  exists trip,
    In trip (trips gtfsCache')
    /\ trip_id trip = train_tripId t
    /\ getActiveServiceId date (calendar gtfsCache') (calendarDates gtfsCache')
         = Some (service_id trip)
    /\ direction_id trip = directionIdOf stations o d
    /\ direction t = (if northbound stations o d then Northbound else Southbound)
    /\ trainNumber t = (if String.eqb (trip_short_name trip) "" then trip_id trip
                        else trip_short_name trip).
Proof.
  intros Hres Hin gtfsCache'.
  assert (Hne : l <> []) by (intros ->; destruct Hin).
  destruct (getScheduledTrains_selected _ _ _ _ _ _ _ _ _ _ Hres Hne)
    as [os [ds [sid [trains [_ [_ [Hsid [Hloop ->]]]]]]]].
  assert (Hin' : In t trains).
  { rewrite <- list_elem_of_In in Hin |- *. apply elem_of_take in Hin.
    destruct Hin as [i [Hi _]]. apply list_elem_of_lookup_2 in Hi.
    rewrite list_elem_of_In in Hi |- *.
    eapply Permutation_in; [apply sortByDeparture_perm | exact Hi]. }
  destruct (tripLoop_pushed _ _ _ _ Hloop Hin') as [trip [before [Htrip Hpush]]].
  apply filter_In in Htrip. destruct Htrip as [Htrip Hserv].
  apply String.eqb_eq in Hserv.
  apply processTrip_push in Hpush.
  destruct Hpush as [originStop [destStop [dep [arr [Hdir [_ [_ [_ [_ Ht]]]]]]]]].
  exists trip. subst t gtfsCache'. cbn [train_tripId direction trainNumber trainRecord].
  rewrite Hserv. repeat split; auto.
Qed.

Lemma trains_of_active_service_witness :
  exists trip,
    In trip (trips Sample.cache) /\ trip_id trip = "T101"%string
    /\ getActiveServiceId Sample.tuesday0700 (calendar Sample.cache)
         (calendarDates Sample.cache) = Some (service_id trip).
Proof.
  assert (Hres : fst (getScheduledTrains Sample.stations Sample.getStationById
                        Sample.env Sample.emptyCache "sf" "sj" (Some Sample.tuesday0700) [] ∅)
                 = Normal [trainRecord (stopTimes Sample.cache) false Sample.t101
                             1717513200000 1717515900000])
    by (vm_compute; reflexivity).
  destruct (trains_of_active_service _ _ _ _ _ _ _ _ _ _ _ Hres (or_introl eq_refl))
    as [trip [Hin [Hid [Hserv _]]]].
  exists trip. auto.
Defined.

(** X17. Every train of the result is still relevant at the query instant:
    it is the record of a trip of the dataset, and the actual instants the
    overlay computes for that trip from the record's scheduled departure and
    arrival are such that the actual arrival is not before the query
    instant, and the actual departure is not before it or differs from the
    scheduled one (the train runs with a delay); without real-time data (no
    trip update and no scraped delay) the scheduled departure is not before
    the query instant. *)
Theorem returned_trains_still_relevant stations getStationById env gtfsCache o d date
    tripUpdates caltrainAlerts l t :
  fst (getScheduledTrains stations getStationById env gtfsCache o d (Some date)
         tripUpdates caltrainAlerts) = Normal l ->
  In t l ->
  (exists trip actualDep actualArr,
      In trip (trips (snd (fetchGTFSData env gtfsCache)))
      /\ trip_id trip = train_tripId t
      /\ delayOverlay tripUpdates caltrainAlerts trip
           (Some (departureTime t)) (Some (arrivalTime t))
         = (Some actualDep, Some actualArr)
      /\ date <= actualArr
      /\ (date <= actualDep \/ actualDep <> departureTime t))
  /\ (tripUpdates = [] -> caltrainAlerts = ∅ -> date <= departureTime t).
Proof.
  intros Hres Hin.
  destruct (getScheduledTrains_pushed _ _ _ _ _ _ _ _ _ _ _ Hres Hin)
    as [os [ds [trip [before [_ [_ [Htrip Hpush]]]]]]].
  apply processTrip_push in Hpush.
  destruct Hpush as [originStop [destStop [dep [arr [_ [_ [_ [_ [Hinc Ht]]]]]]]]].
  cbv zeta in Hinc. subst t. cbn [arrivalTime departureTime train_tripId trainRecord].
  assert (Hrel : forall actualDep actualArr,
             delayOverlay tripUpdates caltrainAlerts trip (Some dep) (Some arr)
               = (Some actualDep, Some actualArr) ->
             date <= actualArr /\ (date <= actualDep \/ actualDep <> dep)).
  { intros actualDep actualArr Hover. rewrite Hover in Hinc. cbn [fst snd] in Hinc.
    unfold included, hasDelay, JS.differ, JS.same, JS.lt in Hinc.
    destruct (Z.ltb_spec actualArr date); [discriminate|].
    split; [lia|].
    destruct (Z.ltb_spec actualDep date); [|now left].
    right. destruct (Z.eqb_spec actualDep dep); [discriminate | assumption]. }
  split.
  - destruct (delayOverlay_shift tripUpdates caltrainAlerts trip dep arr)
      as [shift Hover].
    exists trip, (dep + shift), (arr + shift).
    split; [exact Htrip|]. split; [reflexivity|]. split; [exact Hover|].
    now apply Hrel.
  - intros -> ->.
    assert (Hzero : delayOverlay [] ∅ trip (Some dep) (Some arr) = (Some dep, Some arr)).
    { unfold delayOverlay. cbn [length Nat.ltb Nat.leb fst].
      rewrite same_refl. reflexivity. }
    destruct (Hrel _ _ Hzero) as [_ [H | H]]; [lia | congruence].
Qed.

Lemma returned_trains_still_relevant_witness :
  exists trip actualDep actualArr,
    In trip (trips Sample.cache)
    /\ trip_id trip = "T101"%string
    /\ delayOverlay [Sample.late13] ∅ trip (Some 1717513200000) (Some 1717515900000)
       = (Some actualDep, Some actualArr)
    /\ Sample.tuesday0815 <= actualArr
    /\ (Sample.tuesday0815 <= actualDep \/ actualDep <> 1717513200000).
Proof.
  assert (Hres : fst (getScheduledTrains Sample.stations Sample.getStationById
                        Sample.env Sample.emptyCache "sf" "sj" (Some Sample.tuesday0815)
                        [Sample.late13] ∅)
                 = Normal [trainRecord (stopTimes Sample.cache) false Sample.t101
                             1717513200000 1717515900000])
    by (vm_compute; reflexivity).
  exact (proj1 (returned_trains_still_relevant _ _ _ _ _ _ _ _ _ _ _
                  Hres (or_introl eq_refl))).
Defined.

(** X18. Nothing that qualifies is lost but by the cut to five: when the
    result is not empty, the train pushed for a trip of the active service
    is in the result, or the result has five trains and each of them
    departs no later than that train. *)
Theorem qualifying_train_returned_or_later stations getStationById env gtfsCache
    o d date tripUpdates caltrainAlerts l b before trip originStation
    destinationStation :
  let gtfsCache' := snd (fetchGTFSData env gtfsCache) in
  let dir := directionIdOf stations o d in
  fst (getScheduledTrains stations getStationById env gtfsCache o d (Some date)
         tripUpdates caltrainAlerts) = Normal l ->
  l <> [] ->
  getStationById o = Some originStation ->
  getStationById d = Some destinationStation ->
  In trip (trips gtfsCache') ->
  getActiveServiceId date (calendar gtfsCache') (calendarDates gtfsCache')
    = Some (service_id trip) ->
  processTrip (stopTimes gtfsCache') date tripUpdates caltrainAlerts
    (northbound stations o d) dir
    (findGTFSStopId (code originStation) dir)
    (findGTFSStopId (code destinationStation) dir) before trip = Normal (Push b) ->
  In b l
  \/ (length l = 5%nat /\ forall a, In a l -> departureTime a <= departureTime b).
Proof.
  intros gtfsCache' dir Hres Hne Ho Hd Htrip Hserv Hpush. subst gtfsCache' dir.
  destruct (getScheduledTrains_selected _ _ _ _ _ _ _ _ _ _ Hres Hne)
    as [os [ds [sid [trains [Ho' [Hd' [Hsid [Hloop ->]]]]]]]].
  rewrite Ho in Ho'. rewrite Hd in Hd'. rewrite Hserv in Hsid.
  inversion Ho'; inversion Hd'; inversion Hsid; subst os ds sid. clear Ho' Hd' Hsid.
  assert (Hb : In b (sortByDeparture trains)).
  { eapply Permutation_in; [symmetry; apply sortByDeparture_perm|].
    eapply tripLoop_member; [exact Hloop | |].
    - apply filter_In. split; [exact Htrip | apply String.eqb_refl].
    - intros before'. exact (processTrip_push_any _ _ _ _ _ _ _ _ _ _ _ _ Hpush). }
  rewrite <- (take_drop 5 (sortByDeparture trains)) in Hb.
  apply in_app_or in Hb. destruct Hb as [Hb | Hb]; [now left|]. right.
  split.
  - rewrite length_take. destruct (drop 5 (sortByDeparture trains)) eqn:Hdrop;
      [destruct Hb|].
    assert (length (drop 5 (sortByDeparture trains)) <> 0%nat) by now rewrite Hdrop.
    rewrite length_drop in *. lia.
  - intros a Ha. eapply sorted_app_le; [|exact Ha | exact Hb].
    rewrite take_drop. apply sortByDeparture_sorted.
Qed.

Lemma qualifying_train_returned_or_later_witness :
  In (trainRecord (stopTimes Sample.cache) false Sample.t101
        1717513200000 1717515900000)
     [trainRecord (stopTimes Sample.cache) false Sample.t101
        1717513200000 1717515900000].
Proof.
  destruct (qualifying_train_returned_or_later Sample.stations Sample.getStationById
              Sample.env Sample.emptyCache "sf" "sj" Sample.tuesday0700 [] ∅
              [trainRecord (stopTimes Sample.cache) false Sample.t101
                 1717513200000 1717515900000]
              (trainRecord (stopTimes Sample.cache) false Sample.t101
                 1717513200000 1717515900000)
              [] Sample.t101
              {| id := "sf"; code := "SF"; name := "San Francisco" |}
              {| id := "sj"; code := "SJ"; name := "San Jose Diridon" |})
    as [H | [Hlen _]].
  - vm_compute. reflexivity.
  - discriminate.
  - reflexivity.
  - reflexivity.
  - left. reflexivity.
  - vm_compute. reflexivity.
  - vm_compute. reflexivity.
  - exact H.
  - discriminate.
Defined.

Lemma insertByDeparture_filter k t l :
  List.filter (fun x => departureTime x =? k) (insertByDeparture t l)
  = List.filter (fun x => departureTime x =? k) (t :: l).
Proof.
  induction l as [|u rest IH]; [reflexivity|].
  cbn [insertByDeparture].
  destruct (Z.leb_spec (departureTime t) (departureTime u)) as [Hle | Hlt];
    [reflexivity|].
  cbn [List.filter] in *. rewrite IH.
  destruct (Z.eqb_spec (departureTime t) k), (Z.eqb_spec (departureTime u) k);
    try reflexivity. lia.
Qed.

(** X19. The sort by departure keeps the order of the list among trains of
    the same departure instant: for every instant, the trains departing then
    appear in the sorted list in the order the loop pushed them. *)
Theorem equal_departures_keep_order trains k :
  List.filter (fun t => departureTime t =? k) (sortByDeparture trains)
  = List.filter (fun t => departureTime t =? k) trains.
Proof.
  induction trains as [|t rest IH]; [reflexivity|].
  cbn [sortByDeparture foldr]. fold (sortByDeparture rest).
  rewrite insertByDeparture_filter. cbn [List.filter]. now rewrite IH.
Qed.

Lemma clockParts_short time :
  (length (split ":" time) < 3)%nat -> clockParts time = Thrown.
Proof.
  unfold clockParts. destruct (split ":" time) as [|h [|m [|s rest]]]; simpl;
    intros H; try reflexivity. lia.
Qed.

(** X20. One stop time with fewer than three fields empties the whole
    answer: when a trip of the active service and of the direction has both
    stops, and its departure time at the origin or its arrival time at the
    destination has no minute or no second, the round of that trip throws
    and [getScheduledTrains] returns the empty list, whatever the other
    trips are. *)
Theorem malformed_stop_time_empties_result stations getStationById env gtfsCache
    o d date tripUpdates caltrainAlerts trip originStation destinationStation
    originStop destStop :
  let gtfsCache' := snd (fetchGTFSData env gtfsCache) in
  let dir := directionIdOf stations o d in
  getStationById o = Some originStation ->
  getStationById d = Some destinationStation ->
  In trip (trips gtfsCache') ->
  getActiveServiceId date (calendar gtfsCache') (calendarDates gtfsCache')
    = Some (service_id trip) ->
  direction_id trip = dir ->
  find (atStop trip (findGTFSStopId (code originStation) dir)) (stopTimes gtfsCache')
    = Some originStop ->
  find (atStop trip (findGTFSStopId (code destinationStation) dir)) (stopTimes gtfsCache')
    = Some destStop ->
  (length (split ":" (departure_time originStop)) < 3)%nat
  \/ (length (split ":" (arrival_time destStop)) < 3)%nat ->
  fst (getScheduledTrains stations getStationById env gtfsCache o d (Some date)
         tripUpdates caltrainAlerts) = Normal [].
Proof.
  intros gtfsCache' dir Ho Hd Htrip Hserv Hdir Hos Hds Hshort.
  subst gtfsCache' dir. unfold getScheduledTrains, scheduledTrainsTry.
  destruct (fetchGTFSData env gtfsCache) as [loaded cache']. cbn [fst snd] in *.
  destruct (negb loaded || (length (trips cache') =? 0)%nat); [reflexivity|].
  unfold resolveTrains. rewrite Ho, Hd, Hserv.
  destruct (String.eqb (service_id trip) ""); [reflexivity|].
  rewrite tripLoop_thrown; [reflexivity|].
  exists trip. split.
  - apply filter_In. split; [exact Htrip | apply String.eqb_refl].
  - intros before. unfold processTrip. rewrite Hdir, String.eqb_refl. cbn [negb].
    rewrite Hos, Hds. unfold scheduledTimes.
    destruct Hshort as [H | H]; rewrite (clockParts_short _ H).
    + reflexivity.
    + now destruct (clockParts (departure_time originStop)) as [[[? ?] ?]|].
Qed.

Lemma malformed_stop_time_empties_result_witness :
  fst (getScheduledTrains Sample.stations Sample.getStationById Sample.env
         Sample.broken "sf" "sj" (Some Sample.tuesday0700) [] ∅) = Normal [].
Proof.
  refine (malformed_stop_time_empties_result Sample.stations Sample.getStationById
            Sample.env Sample.broken "sf" "sj" Sample.tuesday0700 [] ∅ Sample.t101
            {| id := "sf"; code := "SF"; name := "San Francisco" |}
            {| id := "sj"; code := "SJ"; name := "San Jose Diridon" |}
            (Sample.row "T101" "08:00" "08:00" "70012" 1) Sample.sjArrival
            eq_refl eq_refl _ _ _ _ _ _).
  - right. left. reflexivity.
  - vm_compute. reflexivity.
  - reflexivity.
  - vm_compute. reflexivity.
  - vm_compute. reflexivity.
  - left. vm_compute. lia.
Defined.

(** X21. The overlay moves the departure and the arrival by one and the same
    amount, so the time between them stays the scheduled one; the amount is
    the scraped delay of the train's short name, the feed's delay of the
    trip, or zero, in milliseconds. *)
Theorem overlay_shifts_both_alike tripUpdates caltrainAlerts trip dep arr :
  exists shift,
    delayOverlay tripUpdates caltrainAlerts trip (Some dep) (Some arr)
      = (Some (dep + shift), Some (arr + shift))
    /\ (shift = 0
        \/ (exists info, getTripDelay tripUpdates (trip_id trip) None = Some info
                         /\ shift = info_delay info * 60 * 1000)
        \/ (exists alertDelay, caltrainAlerts !! trip_short_name trip = Some alertDelay
                               /\ shift = delayMinutes alertDelay * 60 * 1000)).
Proof.
  unfold delayOverlay.
  set (fromFeed := if (0 <? length tripUpdates)%nat then _ else _).
  assert (Hfeed : exists sh,
             fromFeed = (Some (dep + sh), Some (arr + sh))
             /\ (sh = 0 \/ exists info,
                    getTripDelay tripUpdates (trip_id trip) None = Some info
                    /\ sh = info_delay info * 60 * 1000)).
  { subst fromFeed. destruct (0 <? length tripUpdates)%nat.
    - destruct (getTripDelay tripUpdates (trip_id trip) None) as [i|].
      + destruct (info_delay i =? 0).
        * exists 0. rewrite !Z.add_0_r. auto.
        * exists (info_delay i * 60 * 1000). split; [reflexivity | eauto].
      + exists 0. rewrite !Z.add_0_r. auto.
    - exists 0. rewrite !Z.add_0_r. auto. }
  destruct Hfeed as [sh [-> Hsh]]. cbn [fst].
  destruct (JS.same (Some (dep + sh)) (Some dep) && (0 <? size caltrainAlerts)%nat).
  - destruct (caltrainAlerts !! trip_short_name trip) as [td|] eqn:Htd.
    + exists (delayMinutes td * 60 * 1000). split; [reflexivity|]. right. right. eauto.
    + exists sh. split; [reflexivity|]. tauto.
  - exists sh. split; [reflexivity|]. tauto.
Qed.

(** ** Further properties: alert severities *)

Lemma toLowerCase_idem s : toLowerCase (toLowerCase s) = toLowerCase s.
Proof.
  induction s as [|c s IH]; simpl; [reflexivity|]. rewrite IH. f_equal.
  destruct c as [[] [] [] [] [] [] [] []]; reflexivity.
Qed.

Lemma toLowerCase_app (p q : string) :
  toLowerCase (p +:+ q) = (toLowerCase p +:+ toLowerCase q)%string.
Proof. induction p as [|c p IH]; simpl; [reflexivity | now rewrite IH]. Qed.

Lemma startsWith_app (w q : string) : startsWith (w +:+ q) w = true.
Proof.
  induction w as [|c w IH]; simpl; [now destruct q|].
  now rewrite Ascii.eqb_refl, IH.
Qed.

Lemma includes_start (s sub : string) : startsWith s sub = true -> includes s sub = true.
Proof. intros H. destruct s; cbn [includes]; now rewrite H. Qed.

Lemma includes_app (p w q : string) : includes (p +:+ w +:+ q) w = true.
Proof.
  induction p as [|c p IH].
  - change (includes (w +:+ q) w = true). apply includes_start, startsWith_app.
  - change (includes (String c (p +:+ w +:+ q)) w = true).
    cbn [includes]. rewrite IH. apply orb_true_r.
Qed.

(** X22. The severity of an alert does not depend on the case of its
    letters, and a text that holds the word severe or critical, in any case
    and anywhere, is critical also when it holds warning or moderate as
    well. *)
Theorem severity_ignores_case s :
  mapSeverity (Some (toUpperCase s)) = mapSeverity (Some s)
  /\ mapSeverity (Some (toLowerCase s)) = mapSeverity (Some s)
  /\ forall p w q,
       toLowerCase w = "severe"%string \/ toLowerCase w = "critical"%string ->
       mapSeverity (Some (p +:+ w +:+ q)%string) = Critical.
Proof.
  unfold mapSeverity. rewrite toLowerCase_upper, toLowerCase_idem.
  split; [now destruct s | split; [now destruct s|]].
  intros p w q Hw.
  assert (Hne : String.eqb (p +:+ w +:+ q) "" = false).
  { apply String.eqb_neq. intros E. apply (f_equal String.length) in E.
    rewrite !string_length_append in E. destruct w; [|simpl in E; lia].
    destruct Hw; discriminate. }
  rewrite Hne, !toLowerCase_app.
  destruct Hw as [-> | ->]; rewrite includes_app; [reflexivity|].
  now rewrite orb_true_r.
Qed.
